(** * MTGA-Companion administrative scripts: a shallow embedding

    Two standalone Python scripts drive the GitHub command-line client:

    - [scripts/setup_projects.py] walks a static assignment table and, for
      every issue, adds it to a project, sets its milestone and appends a
      due-date marker to its body, collecting per-issue failures;
    - [scripts/configure_required_checks.py] fetches one ruleset and reports
      whether it already carries a [required_status_checks] rule.

    The scripts are embedded as functions in a state-and-exception monad.
    The state holds the external world behind [subprocess.run], the log of
    the commands issued so far and the chunks written to standard output.
    The external client, [json.loads] and Python's [str] on exceptions and
    on non-string values are parameters of the development. *)

From Stdlib Require Import String Ascii ZArith List Bool Lia DecimalString.
Import ListNotations.
Local Open Scope list_scope.
Local Open Scope string_scope.

(** * Fragments of the Python runtime used by the scripts *)

Module Py.

#[local] Set Warnings "-register-all".

(** A value produced by [json.loads].  Of a float the scripts only ever
    observe its truth value, so that is all a [JFloat] records.  A
    [JObj] lists the items of a dict in insertion order (keys distinct). *)
Inductive json : Type :=
| JNull
| JBool (b : bool)
| JInt (z : Z)
| JFloat (nonzero : bool)
| JStr (s : string)
| JArr (items : list json)
| JObj (fields : list (string * json)).

(** The exceptions the scripts can meet.  [CalledProcessError] is what
    [subprocess.run(..., check=True)] raises on a non-zero exit status;
    [OtherException] stands for any other [Exception] a transport raises
    (the client is missing, a stub raises on purpose, ...). *)
Inductive exn : Type :=
| CalledProcessError (cmd : list string) (returncode : Z) (stderr : string)
| JSONDecodeError
| KeyError (key : string)
| IndexError
| TypeError
| AttributeError
| OtherException (msg : string).

(** Python's class hierarchy: [LookupError] is the base class of
    [KeyError] and [IndexError] and of nothing else met here. *)
Definition is_LookupError (e : exn) : bool :=
  match e with
  | KeyError _ | IndexError => true
  | _ => false
  end.

Definition is_CalledProcessError (e : exn) : bool :=
  match e with
  | CalledProcessError _ _ _ => true
  | _ => false
  end.

(** What the scripts take from the standard library without defining it. *)
Class Runtime : Type := {
  (** [json.loads]; [None] when it raises [JSONDecodeError] *)
  json_loads : string -> option json;
  (** [str(v)] for a decoded value [v] that is not a [str] *)
  repr : json -> string;
  (** [str(e)] for an exception [e] *)
  str_exn : exn -> string
}.

Definition nl : string := String "010"%char EmptyString.
Definition dquote : string := String "034"%char EmptyString.

(** [str(n)] for an [int]. *)
Definition str_int (z : Z) : string := NilZero.string_of_int (Z.to_int z).

(** [{v}] inside an f-string. *)
Definition format `{Runtime} (v : json) : string :=
  match v with
  | JStr s => s
  | _ => repr v
  end.

(** [bool(v)]. *)
Definition truthy (v : json) : bool :=
  match v with
  | JNull => false
  | JBool b => b
  | JInt z => negb (z =? 0)%Z
  | JFloat nonzero => nonzero
  | JStr s => negb (s =? EmptyString)
  | JArr items => match items with [] => false | _ => true end
  | JObj fields => match fields with [] => false | _ => true end
  end.

(** Lookup in the items of a dict. *)
Fixpoint lookup {V : Type} (k : string) (m : list (string * V)) : option V :=
  match m with
  | [] => None
  | (k', v) :: m' => if k' =? k then Some v else lookup k m'
  end.

(** [v[k]] for a string key [k]. *)
Definition subscript (v : json) (k : string) : exn + json :=
  match v with
  | JObj fields =>
      match lookup k fields with
      | Some x => inr x
      | None => inl (KeyError k)
      end
  | _ => inl TypeError
  end.

(** [v.get(k, default)]: only a dict has the method. *)
Definition dict_get (v : json) (k : string) (default : json) : exn + json :=
  match v with
  | JObj fields =>
      match lookup k fields with
      | Some x => inr x
      | None => inr default
      end
  | _ => inl AttributeError
  end.

(** [needle in hay] on two strings: [needle] occurs in [hay]. *)
Fixpoint str_in (needle hay : string) : bool :=
  String.prefix needle hay ||
  match hay with
  | EmptyString => false
  | String _ hay' => str_in needle hay'
  end.

(** [needle in v] for a string [needle] and a decoded value [v]: substring
    test on a string, membership in a list, key membership in a dict, and
    [TypeError] on anything that is not a container. *)
Definition py_in (needle : string) (v : json) : exn + bool :=
  match v with
  | JStr s => inr (str_in needle s)
  | JArr items =>
      inr (existsb (fun x => match x with
                             | JStr s => s =? needle
                             | _ => false
                             end) items)
  | JObj fields => inr (existsb (fun kv => fst kv =? needle) fields)
  | _ => inl TypeError
  end.

(** [str.lower], on the ASCII letters; other bytes are left as they are. *)
Definition lower_ascii (c : ascii) : ascii :=
  let n := nat_of_ascii c in
  if (65 <=? n)%nat && (n <=? 90)%nat then ascii_of_nat (n + 32) else c.

Fixpoint lower (s : string) : string :=
  match s with
  | EmptyString => EmptyString
  | String c s' => String (lower_ascii c) (lower s')
  end.

(** [sep.join(parts)]. *)
Definition join (sep : string) (parts : list string) : string :=
  String.concat sep parts.

(** The exit status of the interpreter: an uncaught exception ends the
    process with status 1, a normal end of the script with status 0. *)
Definition exit_status {A : Type} (r : exn + A) : Z :=
  match r with
  | inl _ => 1
  | inr _ => 0
  end.

End Py.

Import Py.

(** * The external command-line client *)

(** [subprocess.run(cmd, capture_output=True, text=True, check=True)]:
    it either returns the captured standard output or raises, and it may
    change the external world. *)
Class Transport : Type := {
  World : Type;
  subprocess_run : list string -> World -> (exn + string) * World
}.

(** * The monad of the scripts *)

Section Monad.
Context `{tr : Transport}.

Record St : Type := mkSt {
  world : World;
  calls : list (list string);   (* commands issued so far, oldest first *)
  stdout : list string          (* chunks printed so far, oldest first *)
}.

Definition M (A : Type) : Type := St -> (exn + A) * St.

Definition ret {A : Type} (a : A) : M A := fun s => (inr a, s).

Definition raise {A : Type} (e : exn) : M A := fun s => (inl e, s).

Definition bind {A B : Type} (c : M A) (k : A -> M B) : M B :=
  fun s =>
    match c s with
    | (inr a, s') => k a s'
    | (inl e, s') => (inl e, s')
    end.

(** A value computed without side effect that may raise. *)
Definition lift {A : Type} (r : exn + A) : M A := fun s => (r, s).

(** [try: body except subprocess.CalledProcessError as e: handler]. *)
Definition try_except_cpe {A : Type} (body : M A) (handler : exn -> M A) : M A :=
  fun s =>
    match body s with
    | (inl e, s') =>
        if is_CalledProcessError e then handler e s' else (inl e, s')
    | (inr a, s') => (inr a, s')
    end.

(** [print(text, end=...)], the chunk being the text followed by its end. *)
Definition print (chunk : string) : M unit :=
  fun s => (inr tt, mkSt (world s) (calls s) (stdout s ++ [chunk])%list).

(** One call of the external client, logged. *)
Definition run (cmd : list string) : M string :=
  fun s =>
    let '(r, w) := subprocess_run cmd (world s) in
    (r, mkSt w (calls s ++ [cmd])%list (stdout s)).

Definition loads `{Runtime} (text : string) : M json :=
  match json_loads text with
  | Some v => ret v
  | None => raise JSONDecodeError
  end.

End Monad.

#[global] Arguments St {tr}.
#[global] Arguments M {tr} A.

Declare Scope py_scope.
Delimit Scope py_scope with py.
Notation "x <- c1 ;; c2" := (bind c1 (fun x => c2))
  (at level 61, c1 at next level, right associativity) : py_scope.
Notation "c1 ;; c2" := (bind c1 (fun _ => c2))
  (at level 61, right associativity) : py_scope.

(** * scripts/setup_projects.py *)

Module SetupProjects.

Local Open Scope py_scope.

(** ** The static tables *)

Record project : Type := Project { number : Z; id : string }.

(** [(issue_num, phase, milestone, date)] *)
Definition assignment : Type := (Z * string * string * string)%type.

Definition issue_num_of (t : assignment) : Z :=
  let '(issue_num, _, _, _) := t in issue_num.

Definition milestone_map : list (string * Z) :=
  [ ("Security Fix", 2);
    ("Database Improvements", 3);
    ("Poller Enhancements", 4);
    ("Card Metadata Source", 5);
    ("Full Integration", 6);
    ("Basic Statistics", 7);
    ("Advanced Analytics", 8);
    ("Rank Features", 9);
    ("Draft Storage", 10);
    ("Draft Display", 11);
    ("Draft Analytics", 12);
    ("Collection Features", 13);
    ("Deck Analysis", 14);
    ("Collection-Deck Integration", 15);
    ("GUI Foundation", 16);
    ("Statistics GUI", 17);
    ("Charts & Graphs", 18);
    ("Advanced GUI Features", 19);
    ("Export Features", 20);
    ("External Integration", 21) ]%Z.

Definition project_map : list (string * project) :=
  [ ("Security & Infrastructure", Project 2 "PVT_kwHOABsZ684BHe6N");
    ("Card Metadata Integration", Project 3 "PVT_kwHOABsZ684BHe6O");
    ("Statistics Enhancements", Project 4 "PVT_kwHOABsZ684BHe6P");
    ("Draft Features", Project 5 "PVT_kwHOABsZ684BHe6Q");
    ("Collection & Deck Management", Project 6 "PVT_kwHOABsZ684BHe6S");
    ("Fyne GUI Foundation", Project 7 "PVT_kwHOABsZ684BHe6V");
    ("GUI Features", Project 8 "PVT_kwHOABsZ684BHe6W");
    ("Export & Integration", Project 9 "PVT_kwHOABsZ684BHe6X") ].

Definition assignments : list (Z * list assignment) :=
  [ (2,
     [ (31, "Phase 1: Security", "Security Fix", "2025-11-07");
       (59, "Phase 2: Database", "Database Improvements", "2025-11-08");
       (60, "Phase 2: Database", "Database Improvements", "2025-11-09");
       (65, "Phase 3: Poller", "Poller Enhancements", "2025-11-10");
       (66, "Phase 3: Poller", "Poller Enhancements", "2025-11-11");
       (67, "Phase 3: Poller", "Poller Enhancements", "2025-11-12");
       (68, "Phase 3: Poller", "Poller Enhancements", "2025-11-13");
       (69, "Phase 3: Poller", "Poller Enhancements", "2025-11-14") ]);
    (3,
     [ (71, "Phase 1: Foundation", "Card Metadata Source", "2025-11-15");
       (79, "Phase 2: Integration", "Full Integration", "2025-11-16");
       (118, "Phase 2: Integration", "Full Integration", "2025-11-17") ]);
    (4,
     [ (38, "Phase 1: Core Statistics", "Basic Statistics", "2025-11-18");
       (39, "Phase 1: Core Statistics", "Basic Statistics", "2025-11-19");
       (40, "Phase 1: Core Statistics", "Basic Statistics", "2025-11-20");
       (41, "Phase 1: Core Statistics", "Basic Statistics", "2025-11-21");
       (42, "Phase 1: Core Statistics", "Basic Statistics", "2025-11-22");
       (43, "Phase 1: Core Statistics", "Basic Statistics", "2025-11-23");
       (44, "Phase 1: Core Statistics", "Basic Statistics", "2025-11-24");
       (45, "Phase 1: Core Statistics", "Basic Statistics", "2025-11-25");
       (46, "Phase 1: Core Statistics", "Basic Statistics", "2025-11-26");
       (47, "Phase 2: Advanced Analytics", "Advanced Analytics", "2025-11-27");
       (48, "Phase 1: Core Statistics", "Basic Statistics", "2025-11-28");
       (49, "Phase 1: Core Statistics", "Basic Statistics", "2025-11-29");
       (57, "Phase 2: Advanced Analytics", "Advanced Analytics", "2025-11-30");
       (72, "Phase 1: Core Statistics", "Basic Statistics", "2025-12-01");
       (76, "Phase 1: Core Statistics", "Basic Statistics", "2025-12-02");
       (81, "Phase 1: Core Statistics", "Basic Statistics", "2025-12-03");
       (87, "Phase 2: Advanced Analytics", "Advanced Analytics", "2025-12-04");
       (88, "Phase 2: Advanced Analytics", "Advanced Analytics", "2025-12-05");
       (89, "Phase 2: Advanced Analytics", "Advanced Analytics", "2025-12-06");
       (90, "Phase 2: Advanced Analytics", "Advanced Analytics", "2025-12-07");
       (91, "Phase 2: Advanced Analytics", "Advanced Analytics", "2025-12-08");
       (92, "Phase 2: Advanced Analytics", "Advanced Analytics", "2025-12-09");
       (94, "Phase 2: Advanced Analytics", "Advanced Analytics", "2025-12-10");
       (95, "Phase 2: Advanced Analytics", "Advanced Analytics", "2025-12-11");
       (96, "Phase 2: Advanced Analytics", "Advanced Analytics", "2025-12-12");
       (97, "Phase 2: Advanced Analytics", "Advanced Analytics", "2025-12-13");
       (98, "Phase 2: Advanced Analytics", "Advanced Analytics", "2025-12-14");
       (99, "Phase 2: Advanced Analytics", "Advanced Analytics", "2025-12-15");
       (100, "Phase 1: Core Statistics", "Basic Statistics", "2025-12-16");
       (102, "Phase 3: Rank Tracking", "Rank Features", "2025-12-17");
       (103, "Phase 3: Rank Tracking", "Rank Features", "2025-12-18");
       (104, "Phase 3: Rank Tracking", "Rank Features", "2025-12-19");
       (105, "Phase 3: Rank Tracking", "Rank Features", "2025-12-20");
       (106, "Phase 3: Rank Tracking", "Rank Features", "2025-12-21");
       (107, "Phase 3: Rank Tracking", "Rank Features", "2025-12-22");
       (108, "Phase 3: Rank Tracking", "Rank Features", "2025-12-23");
       (109, "Phase 3: Rank Tracking", "Rank Features", "2025-12-24");
       (110, "Phase 3: Rank Tracking", "Rank Features", "2025-12-25") ]);
    (5,
     [ (112, "Phase 1: Storage", "Draft Storage", "2025-12-26");
       (113, "Phase 2: Display", "Draft Display", "2025-12-27");
       (114, "Phase 2: Display", "Draft Display", "2025-12-28");
       (115, "Phase 3: Analytics", "Draft Analytics", "2025-12-29");
       (116, "Phase 2: Display", "Draft Display", "2025-12-30");
       (117, "Phase 2: Display", "Draft Display", "2025-12-31");
       (118, "Phase 2: Display", "Draft Display", "2026-01-01");
       (119, "Phase 3: Analytics", "Draft Analytics", "2026-01-02");
       (120, "Phase 3: Analytics", "Draft Analytics", "2026-01-03");
       (121, "Phase 3: Analytics", "Draft Analytics", "2026-01-04");
       (122, "Phase 3: Analytics", "Draft Analytics", "2026-01-05") ]);
    (6,
     [ (73, "Phase 1: Collection", "Collection Features", "2026-01-06");
       (74, "Phase 3: Integration", "Collection-Deck Integration", "2026-01-07");
       (75, "Phase 3: Integration", "Collection-Deck Integration", "2026-01-08");
       (76, "Phase 1: Collection", "Collection Features", "2026-01-09");
       (77, "Phase 1: Collection", "Collection Features", "2026-01-10");
       (80, "Phase 2: Deck Analysis", "Deck Analysis", "2026-01-11");
       (82, "Phase 2: Deck Analysis", "Deck Analysis", "2026-01-12");
       (83, "Phase 3: Integration", "Collection-Deck Integration", "2026-01-13");
       (84, "Phase 3: Integration", "Collection-Deck Integration", "2026-01-14");
       (85, "Phase 3: Integration", "Collection-Deck Integration", "2026-01-15") ]);
    (7,
     [ (50, "Phase 1: Foundation", "GUI Foundation", "2026-01-16");
       (53, "Phase 1: Foundation", "GUI Foundation", "2026-01-17") ]);
    (8,
     [ (51, "Phase 1: Statistics GUI", "Statistics GUI", "2026-01-18");
       (52, "Phase 2: Visualizations", "Charts & Graphs", "2026-01-19");
       (54, "Phase 2: Visualizations", "Charts & Graphs", "2026-01-20");
       (55, "Phase 1: Statistics GUI", "Statistics GUI", "2026-01-21");
       (56, "Phase 3: Advanced Features", "Advanced GUI Features", "2026-01-22");
       (61, "Phase 3: Advanced Features", "Advanced GUI Features", "2026-01-23");
       (62, "Phase 3: Advanced Features", "Advanced GUI Features", "2026-01-24");
       (63, "Phase 3: Advanced Features", "Advanced GUI Features", "2026-01-25");
       (77, "Phase 1: Statistics GUI", "Statistics GUI", "2026-01-26");
       (90, "Phase 2: Visualizations", "Charts & Graphs", "2026-01-27");
       (98, "Phase 2: Visualizations", "Charts & Graphs", "2026-01-28");
       (105, "Phase 1: Statistics GUI", "Statistics GUI", "2026-01-29");
       (110, "Phase 2: Visualizations", "Charts & Graphs", "2026-01-30");
       (113, "Phase 1: Statistics GUI", "Statistics GUI", "2026-01-31");
       (114, "Phase 1: Statistics GUI", "Statistics GUI", "2026-02-01");
       (117, "Phase 2: Visualizations", "Charts & Graphs", "2026-02-02") ]);
    (9,
     [ (42, "Phase 1: Export", "Export Features", "2026-02-03");
       (58, "Phase 2: Integration", "External Integration", "2026-02-04");
       (73, "Phase 1: Export", "Export Features", "2026-02-05");
       (82, "Phase 1: Export", "Export Features", "2026-02-06");
       (92, "Phase 1: Export", "Export Features", "2026-02-07");
       (97, "Phase 1: Export", "Export Features", "2026-02-08");
       (116, "Phase 1: Export", "Export Features", "2026-02-09") ]) ]%Z.

(** ** The four operations on one issue *)

Section Operations.
Context `{rt : Runtime} `{tr : Transport}.

Definition node_id_query (issue_num : Z) : string :=
  join nl
    [ EmptyString;
      "    {";
      "      repository(owner: " ++ dquote ++ "RdHamilton" ++ dquote
        ++ ", name: " ++ dquote ++ "MTGA-Companion" ++ dquote ++ ") {";
      "        issue(number: " ++ str_int issue_num ++ ") {";
      "          id";
      "        }";
      "      }";
      "    }";
      "    " ].

Definition node_id_cmd (issue_num : Z) : list string :=
  [ "gh"; "api"; "graphql"; "-f"; "query=" ++ node_id_query issue_num ].

Definition get_issue_node_id (issue_num : Z) : M json :=
  out <- run (node_id_cmd issue_num) ;;
  data <- loads out ;;
  d1 <- lift (subscript data "data") ;;
  d2 <- lift (subscript d1 "repository") ;;
  d3 <- lift (subscript d2 "issue") ;;
  lift (subscript d3 "id").

Definition add_mutation (project_id : string) (issue_node_id : json) : string :=
  join nl
    [ EmptyString;
      "    mutation {";
      "      addProjectV2ItemById(input: {";
      "        projectId: " ++ dquote ++ project_id ++ dquote;
      "        contentId: " ++ dquote ++ format issue_node_id ++ dquote;
      "      }) {";
      "        item {";
      "          id";
      "        }";
      "      }";
      "    }";
      "    " ].

Definition add_cmd (project_id : string) (issue_node_id : json) : list string :=
  [ "gh"; "api"; "graphql"; "-f"; "query=" ++ add_mutation project_id issue_node_id ].

(** The test of the [except] branch on the captured standard error. *)
Definition already_there (stderr : string) : bool :=
  str_in "already exists" (lower stderr) || str_in "already added" (lower stderr).

(** Returns the id of the new project item, [JNull] (Python's [None])
    when the client reports that the issue is already in the project. *)
Definition add_issue_to_project (project_id : string) (issue_node_id : json) : M json :=
  try_except_cpe
    (out <- run (add_cmd project_id issue_node_id) ;;
     data <- loads out ;;
     d1 <- lift (subscript data "data") ;;
     d2 <- lift (subscript d1 "addProjectV2ItemById") ;;
     d3 <- lift (subscript d2 "item") ;;
     lift (subscript d3 "id"))
    (fun e =>
       match e with
       | CalledProcessError _ _ stderr =>
           if already_there stderr then ret JNull else raise e
       | _ => raise e
       end).

Definition milestone_cmd (issue_num milestone_num : Z) : list string :=
  [ "gh"; "issue"; "edit"; str_int issue_num; "--milestone"; str_int milestone_num ].

Definition set_issue_milestone (issue_num milestone_num : Z) : M bool :=
  try_except_cpe
    (_ <- run (milestone_cmd issue_num milestone_num) ;;
     ret true)
    (fun _ => ret false).

Definition view_cmd (issue_num : Z) : list string :=
  [ "gh"; "issue"; "view"; str_int issue_num; "--json"; "body" ].

Definition edit_body_cmd (issue_num : Z) (body : string) : list string :=
  [ "gh"; "issue"; "edit"; str_int issue_num; "--body"; body ].

Definition due_marker (date_str : string) : string :=
  "**Due Date:** " ++ date_str.

(** [data.get('body', '') or ''] *)
Definition body_of (data : json) : exn + json :=
  match dict_get data "body" (JStr EmptyString) with
  | inr b => inr (if truthy b then b else JStr EmptyString)
  | inl e => inl e
  end.

(** The body written back when the marker is missing. *)
Definition new_body (body : json) (date_str : string) : string :=
  if truthy body
  then format body ++ nl ++ nl ++ due_marker date_str
  else due_marker date_str.

Definition set_issue_due_date (issue_num : Z) (date_str : string) : M bool :=
  try_except_cpe
    (out <- run (view_cmd issue_num) ;;
     data <- loads out ;;
     body <- lift (body_of data) ;;
     present <- lift (py_in (due_marker date_str) body) ;;
     if negb present
     then
       _ <- run (edit_body_cmd issue_num (new_body body date_str)) ;;
       ret true
     else ret true)
    (fun _ => ret false).

(** ** The main loop *)

Record tally : Type := Tally {
  processed : Z;
  errors : list (Z * string)
}.

Definition check_mark : string :=
  String "226"%char (String "156"%char (String "147"%char EmptyString)).

Definition cross_mark : string :=
  String "226"%char (String "156"%char (String "151"%char EmptyString)).

(** The statements inside the [try] of the inner loop, in the four
    groups the source marks with its comments. *)

(** [# Get issue node ID] and [# Add to project] *)
Definition lookup_and_add (project_id : string) (t : assignment) : M unit :=
  let '(issue_num, _, _, _) := t in
  print ("  Issue #" ++ str_int issue_num ++ "... ") ;;
  issue_node_id <- get_issue_node_id issue_num ;;
  item_id <- add_issue_to_project project_id issue_node_id ;;
  if truthy item_id
  then print "added to project, "
  else print "already in project, ".

(** [milestone_map[milestone]] *)
Definition milestone_number (milestone : string) : exn + Z :=
  match lookup milestone milestone_map with
  | Some n => inr n
  | None => inl (KeyError milestone)
  end.

(** [# Set milestone] *)
Definition milestone_step (t : assignment) : M unit :=
  let '(issue_num, _, milestone, _) := t in
  milestone_num <- lift (milestone_number milestone) ;;
  ok <- set_issue_milestone issue_num milestone_num ;;
  if ok then print "milestone set, " else ret tt.

(** [# Set due date] *)
Definition due_date_step (t : assignment) : M unit :=
  let '(issue_num, _, _, date_str) := t in
  ok <- set_issue_due_date issue_num date_str ;;
  if ok then print "due date set" else ret tt.

Definition issue_steps (project_id : string) (t : assignment) : M unit :=
  lookup_and_add project_id t ;;
  milestone_step t ;;
  due_date_step t ;;
  print (" " ++ check_mark ++ nl).

(** One turn of the inner loop: the [try] with its [except Exception]. *)
Definition process_issue (project_id : string) (t : assignment) (a : tally) : M tally :=
  fun s =>
    match issue_steps project_id t s with
    | (inr _, s') => (inr (Tally (processed a + 1) (errors a)), s')
    | (inl e, s') =>
        (_ <- print (" " ++ cross_mark ++ " Error: " ++ str_exn e ++ nl) ;;
         ret (Tally (processed a)
                    (errors a ++ [(issue_num_of t, str_exn e)])%list)) s'
    end.

Fixpoint process_issues (project_id : string) (issues : list assignment) (a : tally)
  : M tally :=
  match issues with
  | [] => ret a
  | t :: rest =>
      a' <- process_issue project_id t a ;;
      process_issues project_id rest a'
  end.

(** [[k for k, v in project_map.items() if v["number"] == project_num][0]] *)
Definition project_name_of (project_num : Z) : exn + string :=
  match filter (fun kv => (number (snd kv) =? project_num)%Z) project_map with
  | kv :: _ => inr (fst kv)
  | [] => inl IndexError
  end.

(** [project_map[project_name]["id"]] *)
Definition project_id_of (project_name : string) : exn + string :=
  match lookup project_name project_map with
  | Some p => inr (id p)
  | None => inl (KeyError project_name)
  end.

Fixpoint process_projects (table : list (Z * list assignment)) (a : tally) : M tally :=
  match table with
  | [] => ret a
  | (project_num, issues) :: rest =>
      project_name <- lift (project_name_of project_num) ;;
      project_id <- lift (project_id_of project_name) ;;
      print (nl ++ "Processing " ++ project_name ++ " ("
               ++ str_int (Z.of_nat (length issues)) ++ " issues)..." ++ nl) ;;
      a' <- process_issues project_id issues a ;;
      process_projects rest a'
  end.

Definition total_of (table : list (Z * list assignment)) : Z :=
  fold_right Z.add 0%Z (map (fun e => Z.of_nat (length (snd e))) table).

Definition summary_line (processed total : Z) : string :=
  nl ++ nl ++ "Completed: " ++ str_int processed ++ "/" ++ str_int total
     ++ " issues processed" ++ nl.

Fixpoint print_errors (errs : list (Z * string)) : M unit :=
  match errs with
  | [] => ret tt
  | (issue_num, error) :: rest =>
      print ("  Issue #" ++ str_int issue_num ++ ": " ++ error ++ nl) ;;
      print_errors rest
  end.

Record result : Type := Result {
  total : Z;
  final : tally
}.

(** [main()] over an assignment table. *)
Definition main_on (table : list (Z * list assignment)) : M result :=
  let total := total_of table in
  a <- process_projects table (Tally 0 []) ;;
  print (summary_line (processed a) total) ;;
  (match errors a with
   | [] => ret tt
   | _ =>
       print (nl ++ "Errors (" ++ str_int (Z.of_nat (length (errors a))) ++ "):" ++ nl) ;;
       print_errors (errors a)
   end) ;;
  ret (Result total a).

(** The script: [main()] over its own table. *)
Definition main : M result := main_on assignments.

End Operations.

End SetupProjects.

(** * scripts/configure_required_checks.py *)

Module RequiredChecks.

Local Open Scope py_scope.

Definition REPO : string := "RdHamilton/MTGA-Companion".
Definition RULESET_ID : Z := 9523549.
Definition REQUIRED_CHECKS : list string := [ "Test (Linux)"; "Lint"; "Format Check" ].

(** [str.split()] without argument: the maximal runs of characters that
    are not white space.  A Python string is a sequence of code points,
    held here in its UTF-8 encoding; the white-space code points are
    U+0009-000D, U+001C-001F, U+0020, U+0085, U+00A0, U+1680, U+2000-200A,
    U+2028, U+2029, U+202F, U+205F and U+3000. *)

(** The white-space characters of one byte. *)
Definition is_space (c : ascii) : bool :=
  let n := nat_of_ascii c in
  (n =? 32)%nat || ((9 <=? n)%nat && (n <=? 13)%nat)
  || ((28 <=? n)%nat && (n <=? 31)%nat).

(** The white-space characters of three bytes: U+1680 (E1 9A 80),
    U+2000-200A (E2 80 80-8A), U+2028, U+2029, U+202F (E2 80 A8, A9, AF),
    U+205F (E2 81 9F) and U+3000 (E3 80 80). *)
Definition is_space3 (b1 b2 b3 : nat) : bool :=
  ((b1 =? 225) && (b2 =? 154) && (b3 =? 128))%nat
  || ((b1 =? 226) && (b2 =? 128)
      && (((128 <=? b3) && (b3 <=? 138)) || (b3 =? 168) || (b3 =? 169) || (b3 =? 175)))%nat
  || ((b1 =? 226) && (b2 =? 129) && (b3 =? 159))%nat
  || ((b1 =? 227) && (b2 =? 128) && (b3 =? 128))%nat.

(** The number of bytes of the white-space character the text starts
    with, 0 when it starts with none.  The characters of two bytes are
    U+0085 (C2 85) and U+00A0 (C2 A0). *)
Definition space_width (s : string) : nat :=
  match s with
  | EmptyString => 0
  | String c1 s1 =>
      if is_space c1 then 1
      else
        match s1 with
        | EmptyString => 0
        | String c2 s2 =>
            let b1 := nat_of_ascii c1 in
            let b2 := nat_of_ascii c2 in
            if ((b1 =? 194) && ((b2 =? 133) || (b2 =? 160)))%nat then 2
            else
              match s2 with
              | EmptyString => 0
              | String c3 _ => if is_space3 b1 b2 (nat_of_ascii c3) then 3 else 0
              end
        end
  end.

(** [skip] counts the bytes still to drop of a white-space character. *)
Fixpoint split_from (s : string) (word : string) (skip : nat) : list string :=
  match s with
  | EmptyString =>
      match word with
      | EmptyString => []
      | _ => [word]
      end
  | String c s' =>
      match skip with
      | S k => split_from s' word k
      | O =>
          match space_width s with
          | O => split_from s' (word ++ String c EmptyString) 0
          | S k =>
              match word with
              | EmptyString => split_from s' EmptyString k
              | _ => word :: split_from s' EmptyString k
              end
          end
      end
  end.

Definition split (s : string) : list string := split_from s EmptyString 0.

(** The values a [for] loop draws from a decoded value. *)
Definition iterate (v : json) : exn + list json :=
  match v with
  | JArr items => inr items
  | JObj fields => inr (map (fun kv => JStr (fst kv)) fields)
  | JStr s => inr (map (fun c => JStr (String c EmptyString)) (list_ascii_of_string s))
  | _ => inl TypeError
  end.

(** [[r.get('type') for r in rules]] *)
Fixpoint rule_types (rules : list json) : exn + list json :=
  match rules with
  | [] => inr []
  | r :: rest =>
      match dict_get r "type" JNull with
      | inl e => inl e
      | inr ty =>
          match rule_types rest with
          | inl e => inl e
          | inr tys => inr (ty :: tys)
          end
      end
  end.

(** [v == "text"] for a decoded value [v]. *)
Definition eq_str (v : json) (text : string) : bool :=
  match v with
  | JStr s => s =? text
  | _ => false
  end.

(** [any(r.get("type") == "required_status_checks" for r in rules)],
    which stops at the first rule that matches. *)
Fixpoint any_required (rules : list json) : exn + bool :=
  match rules with
  | [] => inr false
  | r :: rest =>
      match dict_get r "type" JNull with
      | inl e => inl e
      | inr ty =>
          if eq_str ty "required_status_checks" then inr true else any_required rest
      end
  end.

Section Script.
Context `{rt : Runtime} `{tr : Transport}.

(** Returns [JNull] for Python's [None].  Both [except] clauses guard the
    call of the client as well as the decoding of its output. *)
Definition run_gh_command (cmd : string) : M json :=
  fun s =>
    match run ("gh" :: "api" :: split cmd) s with
    | (inr out, s') =>
        match json_loads out with
        | Some v => (inr v, s')
        | None =>
            (print ("Error parsing JSON: " ++ str_exn JSONDecodeError ++ nl) ;;
             ret JNull) s'
        end
    | (inl (CalledProcessError c rc stderr), s') =>
        (print ("Error running command: " ++ cmd ++ nl) ;;
         print ("Error: " ++ stderr ++ nl) ;;
         ret JNull) s'
    | (inl JSONDecodeError, s') =>
        (print ("Error parsing JSON: " ++ str_exn JSONDecodeError ++ nl) ;;
         ret JNull) s'
    | (inl e, s') => (inl e, s')
    end.

Definition ruleset_path : string :=
  "repos/" ++ REPO ++ "/rulesets/" ++ str_int RULESET_ID.

Definition get_current_ruleset : M json := run_gh_command ruleset_path.

Fixpoint print_checks (checks : list string) : M unit :=
  match checks with
  | [] => ret tt
  | check :: rest => print ("   - " ++ check ++ nl) ;; print_checks rest
  end.

Definition print_instructions : M unit :=
  print (nl ++ "To add required status checks, you have two options:" ++ nl) ;;
  print (nl ++ "Option 1: Update the ruleset via GitHub UI" ++ nl) ;;
  print ("1. Go to: https://github.com/" ++ REPO ++ "/settings/rules" ++ nl) ;;
  print ("2. Click on ruleset ID " ++ str_int RULESET_ID ++ nl) ;;
  print ("3. Click 'Add rule' and select 'Required status checks'" ++ nl) ;;
  print ("4. Add the following checks:" ++ nl) ;;
  print_checks REQUIRED_CHECKS ;;
  print ("5. Save the changes" ++ nl) ;;
  print (nl ++ "Option 2: Set up branch protection (Recommended)" ++ nl) ;;
  print ("1. Go to: https://github.com/" ++ REPO ++ "/settings/branches" ++ nl) ;;
  print ("2. Click 'Add rule' or edit existing rule for 'main' branch" ++ nl) ;;
  print ("3. Enable 'Require status checks to pass before merging'" ++ nl) ;;
  print ("4. Select the following required checks:" ++ nl) ;;
  print_checks REQUIRED_CHECKS ;;
  print ("5. Optionally enable 'Require branches to be up to date before merging'" ++ nl) ;;
  print ("6. Save the changes" ++ nl) ;;
  print (nl ++ "Note: Branch protection is more flexible and easier to manage." ++ nl) ;;
  print ("Rulesets are newer but may have limitations." ++ nl).

Definition update_ruleset_with_required_checks : M bool :=
  current <- get_current_ruleset ;;
  if negb (truthy current)
  then
    print ("Error: Could not fetch current ruleset" ++ nl) ;;
    ret false
  else
    name <- lift (dict_get current "name" JNull) ;;
    print ("Current ruleset: " ++ format name ++ nl) ;;
    rules <- lift (dict_get current "rules" (JArr [])) ;;
    items <- lift (iterate rules) ;;
    types <- lift (rule_types items) ;;
    print ("Current rules: " ++ format (JArr types) ++ nl) ;;
    rules <- lift (dict_get current "rules" (JArr [])) ;;
    items <- lift (iterate rules) ;;
    has_required_checks <- lift (any_required items) ;;
    if has_required_checks
    then
      print ("Required status checks rule already exists in ruleset" ++ nl) ;;
      ret true
    else
      print_instructions ;;
      ret false.

(** The [__main__] block: [sys.exit(0 if success else 1)]; an uncaught
    exception ends the process with status 1. *)
Definition script (s : St) : Z * St :=
  match update_ruleset_with_required_checks s with
  | (inr true, s') => (0%Z, s')
  | (inr false, s') => (1%Z, s')
  | (inl _, s') => (1%Z, s')
  end.

End Script.

(** ** Reading a ruleset document *)

(** The rules of a ruleset document. *)
Definition rules_of (current : json) : list json :=
  match current with
  | JObj fields =>
      match lookup "rules" fields with
      | Some (JArr items) => items
      | _ => []
      end
  | _ => []
  end.

Definition is_object (v : json) : bool :=
  match v with
  | JObj _ => true
  | _ => false
  end.

(** The shape of a ruleset as the platform serves it: an object with at
    least one field whose [rules], when present, is an array of objects. *)
Definition ruleset_shaped (current : json) : bool :=
  match current with
  | JObj [] => false
  | JObj fields =>
      match lookup "rules" fields with
      | None => true
      | Some (JArr items) => forallb is_object items
      | Some _ => false
      end
  | _ => false
  end.

(** The ruleset contains a rule of the given type. *)
Definition has_rule_of_type (ty : string) (current : json) : bool :=
  existsb (fun r => match r with
                    | JObj fields =>
                        match lookup "type" fields with
                        | Some (JStr s) => s =? ty
                        | _ => false
                        end
                    | _ => false
                    end) (rules_of current).

End RequiredChecks.

(** * Stub transports

    Stateless stand-ins for the external client, in the manner of the
    test doubles the scenarios call for, together with a decoder for the
    handful of documents they emit. *)

Module Stub.

Import SetupProjects.

Definition quoted (s : string) : string := dquote ++ s ++ dquote.

(** [{"data":{"repository":{"issue":{"id":"I_1"}}}}] *)
Definition node_doc : string :=
  "{" ++ quoted "data" ++ ":{" ++ quoted "repository" ++ ":{" ++ quoted "issue"
      ++ ":{" ++ quoted "id" ++ ":" ++ quoted "I_1" ++ "}}}}".

(** [{"data":{"repository":{"issue":null}}}] *)
Definition null_issue_doc : string :=
  "{" ++ quoted "data" ++ ":{" ++ quoted "repository" ++ ":{" ++ quoted "issue"
      ++ ":null}}}".

(** [{"data":{"addProjectV2ItemById":{"item":{"id":"PVTI_1"}}}}] *)
Definition item_doc : string :=
  "{" ++ quoted "data" ++ ":{" ++ quoted "addProjectV2ItemById" ++ ":{"
      ++ quoted "item" ++ ":{" ++ quoted "id" ++ ":" ++ quoted "PVTI_1" ++ "}}}}".

(** [{"body":"..."}] *)
Definition body_doc (body : string) : string :=
  "{" ++ quoted "body" ++ ":" ++ quoted body ++ "}".

(** [{"body":null}] *)
Definition null_body_doc : string := "{" ++ quoted "body" ++ ":null}".

(** [{"name":"main","rules":[{"type":"deletion"}]}] *)
Definition ruleset_without_doc : string :=
  "{" ++ quoted "name" ++ ":" ++ quoted "main" ++ "," ++ quoted "rules" ++ ":[{"
      ++ quoted "type" ++ ":" ++ quoted "deletion" ++ "}]}".

(** [{"name":"main","rules":[{"type":"deletion"},{"type":"required_status_checks"}]}] *)
Definition ruleset_with_doc : string :=
  "{" ++ quoted "name" ++ ":" ++ quoted "main" ++ "," ++ quoted "rules" ++ ":[{"
      ++ quoted "type" ++ ":" ++ quoted "deletion" ++ "},{"
      ++ quoted "type" ++ ":" ++ quoted "required_status_checks" ++ "}]}".

Definition documents : list (string * json) :=
  [ (node_doc,
     JObj [("data", JObj [("repository", JObj [("issue", JObj [("id", JStr "I_1")])])])]);
    (null_issue_doc,
     JObj [("data", JObj [("repository", JObj [("issue", JNull)])])]);
    (item_doc,
     JObj [("data", JObj [("addProjectV2ItemById",
                           JObj [("item", JObj [("id", JStr "PVTI_1")])])])]);
    (body_doc EmptyString, JObj [("body", JStr EmptyString)]);
    (null_body_doc, JObj [("body", JNull)]);
    (body_doc "Rotate the leaked token.", JObj [("body", JStr "Rotate the leaked token.")]);
    (body_doc "**Due Date:** 2025-11-07", JObj [("body", JStr "**Due Date:** 2025-11-07")]);
    (ruleset_without_doc,
     JObj [("name", JStr "main"); ("rules", JArr [JObj [("type", JStr "deletion")]])]);
    (ruleset_with_doc,
     JObj [("name", JStr "main");
           ("rules", JArr [JObj [("type", JStr "deletion")];
                           JObj [("type", JStr "required_status_checks")]])]) ].

Definition exn_name (e : exn) : string :=
  match e with
  | CalledProcessError _ rc _ =>
      "Command returned non-zero exit status " ++ str_int rc ++ "."
  | JSONDecodeError => "Expecting value"
  | KeyError key => "'" ++ key ++ "'"
  | IndexError => "list index out of range"
  | TypeError => "'NoneType' object is not subscriptable"
  | AttributeError => "object has no attribute 'get'"
  | OtherException msg => msg
  end.

(** A runtime that decodes exactly the documents above. *)
Definition runtime : Runtime :=
  {| json_loads := fun text => lookup text documents;
     repr := fun _ => "<value>";
     str_exn := exn_name |}.

(** Which of the five commands of the bulk-assignment script this is. *)
Inductive command_kind : Type :=
| Lookup | Add | SetMilestone | ViewBody | EditBody | Unknown.

Definition kind_of (cmd : list string) : command_kind :=
  match cmd with
  | [ _; _; what; _; arg ] =>
      if negb (what =? "graphql") then Unknown
      else if String.prefix ("query=" ++ nl ++ "    mutation") arg then Add
      else Lookup
  | [ _; _; verb; _; flag; _ ] =>
      if verb =? "view" then ViewBody
      else if flag =? "--milestone" then SetMilestone
      else if flag =? "--body" then EditBody
      else Unknown
  | _ => Unknown
  end.

Record answers : Type := Answers {
  on_lookup : list string -> exn + string;
  on_add : list string -> exn + string;
  on_milestone : list string -> exn + string;
  on_view : list string -> exn + string;
  on_edit : list string -> exn + string
}.

Definition answer (a : answers) (cmd : list string) : exn + string :=
  match kind_of cmd with
  | Lookup => on_lookup a cmd
  | Add => on_add a cmd
  | SetMilestone => on_milestone a cmd
  | ViewBody => on_view a cmd
  | EditBody => on_edit a cmd
  | Unknown => inl (OtherException "unexpected command")
  end.

(** A client without state that answers by kind of command. *)
Definition transport (a : answers) : Transport :=
  {| World := unit;
     subprocess_run := fun cmd w => (answer a cmd, w) |}.

Definition ok (text : string) (cmd : list string) : exn + string := inr text.

Definition fails (stderr : string) (cmd : list string) : exn + string :=
  inl (CalledProcessError cmd 1 stderr).

(** Every call succeeds; the issue has the given body document. *)
Definition happy (view_doc : string) : answers :=
  Answers (ok node_doc) (ok item_doc) (ok EmptyString) (ok view_doc) (ok EmptyString).

(** The issue is already in the project. *)
Definition already_in_project : answers :=
  Answers (ok node_doc)
          (fails "GraphQL: Content Already Exists in this project (addProjectV2ItemById)")
          (ok EmptyString) (ok (body_doc EmptyString)) (ok EmptyString).

(** The milestone edit exits with a non-zero status. *)
Definition milestone_fails : answers :=
  Answers (ok node_doc) (ok item_doc) (fails "could not add to milestone")
          (ok (body_doc EmptyString)) (ok EmptyString).

(** Every lookup exits with a non-zero status. *)
Definition lookup_fails : answers :=
  Answers (fails "GraphQL: Could not resolve to an Issue")
          (ok item_doc) (ok EmptyString) (ok (body_doc EmptyString)) (ok EmptyString).

(** Every lookup answers with a null issue. *)
Definition lookup_null : answers :=
  Answers (ok null_issue_doc)
          (ok item_doc) (ok EmptyString) (ok (body_doc EmptyString)) (ok EmptyString).

Fixpoint cmd_eqb (c1 c2 : list string) : bool :=
  match c1, c2 with
  | [], [] => true
  | x :: c1', y :: c2' => (x =? y) && cmd_eqb c1' c2'
  | _, _ => false
  end.

(** The lookup fails for the issues of [bad], everything else succeeds. *)
Definition lookup_fails_for (bad : list Z) : answers :=
  Answers (fun cmd =>
             if existsb (fun n => cmd_eqb cmd (node_id_cmd n)) bad
             then fails "GraphQL: Could not resolve to an Issue" cmd
             else ok node_doc cmd)
          (ok item_doc) (ok EmptyString) (ok (body_doc EmptyString)) (ok EmptyString).

Definition start (a : answers) : @St (transport a) := @mkSt (transport a) tt [] [].

(** A client that gives one answer to every command. *)
Definition always (r : exn + string) : Transport :=
  {| World := unit;
     subprocess_run := fun _ w => (r, w) |}.

Definition fresh (r : exn + string) : @St (always r) := @mkSt (always r) tt [] [].

(** The table of the first scenario: one project with one issue. *)
Definition one_issue : list (Z * list assignment) :=
  [ (2, [ (31, "Phase 1: Security", "Security Fix", "2025-11-07") ]) ]%Z.

Definition two_issues : list (Z * list assignment) :=
  [ (2, [ (31, "Phase 1: Security", "Security Fix", "2025-11-07");
          (59, "Phase 2: Database", "Database Improvements", "2025-11-08") ]) ]%Z.

(** A table naming a project that the project map does not have. *)
Definition stray_project : list (Z * list assignment) :=
  [ (99, [ (31, "Phase 1: Security", "Security Fix", "2025-11-07") ]) ]%Z.

End Stub.

(** * Facts about the runtime fragments *)

Module PyFacts.

Lemma prefix_iff (n h : string) :
  String.prefix n h = true <-> exists post, h = n ++ post.
Proof.
  revert h. induction n as [|c n IH]; intros h.
  - destruct h; simpl; (split; intros _; [eexists|]; reflexivity).
  - destruct h as [|c' h]; simpl.
    + split; [discriminate | intros [post H]; discriminate].
    + destruct (ascii_dec c c') as [->|Hne].
      * rewrite IH. split; intros [post H]; exists post.
        -- now rewrite H.
        -- now injection H.
      * split; [discriminate | intros [post H]; injection H; intros; congruence].
Qed.

(** [str_in] is the substring test. *)
Lemma str_in_iff (n h : string) :
  str_in n h = true <-> exists pre post, h = pre ++ n ++ post.
Proof.
  induction h as [|c h IH]; cbn [str_in].
  - rewrite orb_false_r, prefix_iff. split.
    + intros [post H]. exists EmptyString, post. exact H.
    + intros [pre [post H]]. destruct pre as [|c pre]; [|discriminate].
      exists post. exact H.
  - rewrite orb_true_iff, prefix_iff, IH. split.
    + intros [[post H] | [pre [post H]]].
      * exists EmptyString, post. exact H.
      * exists (String c pre), post. simpl. now rewrite H.
    + intros [pre [post H]]. destruct pre as [|c' pre].
      * left. exists post. exact H.
      * right. exists pre, post. simpl in H. now injection H.
Qed.

Lemma str_in_self (n : string) : str_in n n = true.
Proof.
  apply str_in_iff. exists EmptyString, EmptyString. simpl.
  induction n as [|c n IH]; simpl; [reflexivity | now rewrite <- IH].
Qed.

Lemma prefix_append (a b : string) : String.prefix a (a ++ b) = true.
Proof. apply prefix_iff. now exists b. Qed.

End PyFacts.

(** * Properties of scripts/setup_projects.py *)

Module SetupProjectsSpec.

Import SetupProjects.
Local Open Scope py_scope.
Local Open Scope Z_scope.

(** The project number is found in the project map. *)
Definition resolves (project_num : Z) : bool :=
  match project_name_of project_num with
  | inr name =>
      match project_id_of name with
      | inr _ => true
      | inl _ => false
      end
  | inl _ => false
  end.

Definition resolvable (table : list (Z * list assignment)) : bool :=
  forallb (fun entry => resolves (fst entry)) table.

(** The tuples of a table in the order the loops visit them. *)
Definition all_tuples (table : list (Z * list assignment)) : list assignment :=
  flat_map snd table.

Section Loop.
Context `{rt : Runtime} `{tr : Transport}.

(** The turn for this tuple ends in the [except] branch. *)
Definition raises (project_id : string) (t : assignment) (s : St) : bool :=
  match issue_steps project_id t s with
  | (inl _, _) => true
  | (inr _, _) => false
  end.

Definition error_line (e : exn) : string :=
  " " ++ cross_mark ++ " Error: " ++ str_exn e ++ nl.

Definition printed (s : St) (chunk : string) : St :=
  mkSt (world s) (calls s) (stdout s ++ [chunk]).

Lemma print_eq chunk s : print chunk s = (inr tt, printed s chunk).
Proof. reflexivity. Qed.

Lemma process_issue_ok pid t a s s' :
  issue_steps pid t s = (inr tt, s') ->
  process_issue pid t a s = (inr (Tally (processed a + 1) (errors a)), s').
Proof. intros H. unfold process_issue. now rewrite H. Qed.

Lemma process_issue_raised pid t a s e s' :
  issue_steps pid t s = (inl e, s') ->
  process_issue pid t a s =
    (inr (Tally (processed a) (errors a ++ [(issue_num_of t, str_exn e)])),
     printed s' (error_line e)).
Proof. intros H. unfold process_issue. now rewrite H. Qed.

Lemma process_issue_cases pid t a s :
  exists a' s',
    process_issue pid t a s = (inr a', s') /\
    ((raises pid t s = false /\
      processed a' = processed a + 1 /\ errors a' = errors a) \/
     (raises pid t s = true /\
      processed a' = processed a /\
      exists msg, errors a' = (errors a ++ [(issue_num_of t, msg)])%list)).
Proof.
  unfold raises. destruct (issue_steps pid t s) as [[e|[]] s1] eqn:E.
  - eexists _, _. split; [exact (process_issue_raised _ _ a _ _ _ E)|].
    right. simpl. repeat split. now exists (str_exn e).
  - eexists _, _. split; [exact (process_issue_ok _ _ a _ _ E)|].
    left. simpl. repeat split.
Qed.

Lemma process_issues_total pid issues : forall a s,
  exists a' s',
    process_issues pid issues a s = (inr a', s') /\
    processed a' + Z.of_nat (length (errors a'))
      = processed a + Z.of_nat (length (errors a)) + Z.of_nat (length issues).
Proof.
  induction issues as [|t rest IH]; intros a s.
  - exists a, s. split; [reflexivity | simpl; lia].
  - destruct (process_issue_cases pid t a s) as (a1 & s1 & E1 & Hcase).
    destruct (IH a1 s1) as (a2 & s2 & E2 & Hsum).
    exists a2, s2. split.
    + simpl. unfold bind. now rewrite E1.
    + rewrite Hsum.
      destruct Hcase as [(_ & Hp & He) | (_ & Hp & msg & He)];
        rewrite Hp, He; [|rewrite length_app]; simpl length; lia.
Qed.

(** When the tuples that raise are those of a fixed subset, the counter and
    the failure list are determined by the subset. *)
Lemma process_issues_subset (bad : assignment -> bool) pid issues :
  (forall t, In t issues -> forall s, raises pid t s = bad t) ->
  forall a s, exists a' s',
    process_issues pid issues a s = (inr a', s') /\
    processed a' = processed a + Z.of_nat (length (filter (fun t => negb (bad t)) issues)) /\
    map fst (errors a') = (map fst (errors a) ++ map issue_num_of (filter bad issues))%list.
Proof.
  induction issues as [|t rest IH]; intros Hbad a s.
  - exists a, s. simpl. rewrite app_nil_r. repeat split. lia.
  - destruct (process_issue_cases pid t a s) as (a1 & s1 & E1 & Hcase).
    destruct (IH (fun t' Hin => Hbad t' (or_intror Hin)) a1 s1)
      as (a2 & s2 & E2 & Hp2 & He2).
    exists a2, s2. split; [simpl; unfold bind; now rewrite E1|].
    rewrite Hp2, He2. simpl filter.
    rewrite (Hbad t (or_introl eq_refl) s) in Hcase.
    destruct Hcase as [(Hb & Hp & He) | (Hb & Hp & msg & He)];
      rewrite Hb, Hp, He; simpl.
    + split; [lia | reflexivity].
    + split; [lia|]. rewrite map_app. simpl. now rewrite <- app_assoc.
Qed.

Lemma filter_split_length {A : Type} (f : A -> bool) (l : list A) :
  length l = (length (filter (fun x => negb (f x)) l) + length (filter f l))%nat.
Proof.
  induction l as [|x l IH]; [reflexivity|].
  simpl. destruct (f x); simpl; rewrite IH at 1; lia.
Qed.

Lemma total_of_cons pn issues rest :
  total_of ((pn, issues) :: rest) = Z.of_nat (length issues) + total_of rest.
Proof. reflexivity. Qed.

Lemma total_of_all_tuples table :
  total_of table = Z.of_nat (length (all_tuples table)).
Proof.
  induction table as [|[pn issues] rest IH]; [reflexivity|].
  rewrite total_of_cons, IH. unfold all_tuples. simpl.
  rewrite length_app. lia.
Qed.

(** A run of the outer loop that reaches its end has resolved every
    project number on the way. *)
Lemma process_projects_inv table : forall a s a' s',
  process_projects table a s = (inr a', s') ->
  resolvable table = true /\
  processed a' + Z.of_nat (length (errors a'))
    = processed a + Z.of_nat (length (errors a)) + total_of table.
Proof.
  induction table as [|[pn issues] rest IH]; intros a s a' s' H.
  - injection H as <- <-. split; [reflexivity | unfold total_of; simpl; lia].
  - simpl in H. unfold bind, lift, print, resolvable, resolves in *. simpl.
    destruct (project_name_of pn) as [e|name]; [discriminate|].
    destruct (project_id_of name) as [e|pid]; [discriminate|].
    match type of H with
    | context [process_issues pid issues a ?s0] =>
        destruct (process_issues_total pid issues a s0) as (a1 & s1 & E1 & Hsum)
    end.
    rewrite E1 in H. apply IH in H. destruct H as [Hres Hrest].
    split; [exact Hres|]. rewrite total_of_cons. lia.
Qed.

Lemma process_projects_total table : resolvable table = true ->
  forall a s, exists a' s', process_projects table a s = (inr a', s').
Proof.
  induction table as [|[pn issues] rest IH]; intros Hres a s.
  - now exists a, s.
  - simpl in Hres. apply andb_true_iff in Hres. destruct Hres as [Hpn Hrest].
    unfold resolves in Hpn. simpl. unfold bind, lift, print.
    destruct (project_name_of pn) as [e|name]; [discriminate|].
    destruct (project_id_of name) as [e|pid]; [discriminate|].
    match goal with
    | |- context [process_issues pid issues a ?s0] =>
        destruct (process_issues_total pid issues a s0) as (a1 & s1 & E1 & _)
    end.
    rewrite E1. apply (IH Hrest).
Qed.

Lemma process_projects_subset (bad : assignment -> bool) table :
  (forall pid t, In t (all_tuples table) -> forall s, raises pid t s = bad t) ->
  forall a s a' s',
    process_projects table a s = (inr a', s') ->
    processed a' = processed a
      + Z.of_nat (length (filter (fun t => negb (bad t)) (all_tuples table))) /\
    map fst (errors a')
      = (map fst (errors a) ++ map issue_num_of (filter bad (all_tuples table)))%list.
Proof.
  induction table as [|[pn issues] rest IH]; intros Hbad a s a' s' H.
  - injection H as <- <-. simpl. rewrite app_nil_r. split; [lia | reflexivity].
  - simpl in H. unfold bind, lift, print in H.
    destruct (project_name_of pn) as [e|name]; [discriminate|].
    destruct (project_id_of name) as [e|pid]; [discriminate|].
    unfold all_tuples in *. simpl flat_map in *.
    match type of H with
    | context [process_issues pid issues a ?s0] =>
        destruct (process_issues_subset bad pid issues
                    (fun t Hin => Hbad pid t (in_or_app _ _ _ (or_introl Hin))) a s0)
          as (a1 & s1 & E1 & Hp1 & He1)
    end.
    rewrite E1 in H.
    apply (IH (fun pid' t Hin => Hbad pid' t (in_or_app _ _ _ (or_intror Hin)))) in H.
    destruct H as [Hp He]. rewrite Hp, He, Hp1, He1.
    rewrite !filter_app, !length_app, map_app, <- app_assoc. split; [lia | reflexivity].
Qed.

Lemma print_errors_returns errs : forall s, exists s', print_errors errs s = (inr tt, s').
Proof.
  induction errs as [|[n msg] rest IH]; intros s; simpl.
  - now exists s.
  - unfold bind, print. apply IH.
Qed.

(** [main_on] returns exactly when its outer loop does, with the tally the
    loop ends on. *)
Lemma main_on_inv table s r s' :
  main_on table s = (inr r, s') ->
  total r = total_of table /\
  exists s1, process_projects table (Tally 0 []) s = (inr (final r), s1).
Proof.
  unfold main_on, bind. intros H.
  destruct (process_projects table (Tally 0 []) s) as [[e|a] s1]; [discriminate|].
  unfold print, ret in H.
  destruct (errors a) as [|err errs] eqn:Eerrs.
  - injection H as <- <-. split; [reflexivity | now exists s1].
  - match type of H with
    | context [print_errors ?l ?s0] =>
        destruct (print_errors_returns l s0) as (s2 & E2)
    end.
    rewrite E2 in H. injection H as <- <-. split; [reflexivity | now exists s1].
Qed.

Lemma main_on_total table : resolvable table = true ->
  forall s, exists r s', main_on table s = (inr r, s').
Proof.
  intros Hres s. unfold main_on, bind.
  destruct (process_projects_total table Hres (Tally 0 []) s) as (a & s1 & E).
  rewrite E. unfold print, ret.
  destruct (errors a) as [|err errs].
  - eexists _, _. reflexivity.
  - match goal with
    | |- context [print_errors ?l ?s0] =>
        destruct (print_errors_returns l s0) as (s2 & E2)
    end.
    rewrite E2. eexists _, _. reflexivity.
Qed.

End Loop.

(** ** The operations on one issue *)

Section Steps.
Context `{rt : Runtime} `{tr : Transport}.

(** The state after one more call of the client. *)
Definition called (s : St) (cmd : list string) (w : World) : St :=
  mkSt w (calls s ++ [cmd]) (stdout s).

Lemma body_of_error data e : body_of data = inl e -> e = AttributeError.
Proof.
  unfold body_of, dict_get. destruct data; try (intros H; now injection H).
  destruct (lookup "body" fields); discriminate.
Qed.

Lemma py_in_error needle v e : py_in needle v = inl e -> e = TypeError.
Proof. destruct v; simpl; intros H; try discriminate; now injection H. Qed.

(** The body the operation reads: [data.get('body', '') or ''] of the
    decoded answer to the view command, when there is one. *)
Definition fetched_body (issue_num : Z) (s : St) : option json :=
  match subprocess_run (view_cmd issue_num) (world s) with
  | (inr out, _) =>
      match json_loads out with
      | Some data =>
          match body_of data with
          | inr body => Some body
          | inl _ => None
          end
      | None => None
      end
  | (inl _, _) => None
  end.

(** What [set_issue_due_date] does, by the answers of the client. *)
Lemma set_issue_due_date_unfold n d s :
  set_issue_due_date n d s =
  match subprocess_run (view_cmd n) (world s) with
  | (inl e, w) =>
      (if is_CalledProcessError e then inr false else inl e, called s (view_cmd n) w)
  | (inr out, w) =>
      let s1 := called s (view_cmd n) w in
      match json_loads out with
      | None => (inl JSONDecodeError, s1)
      | Some data =>
          match body_of data with
          | inl e => (inl e, s1)
          | inr body =>
              match py_in (due_marker d) body with
              | inl e => (inl e, s1)
              | inr true => (inr true, s1)
              | inr false =>
                  let edit := edit_body_cmd n (new_body body d) in
                  match subprocess_run edit w with
                  | (inl e, w2) =>
                      (if is_CalledProcessError e then inr false else inl e,
                       called s1 edit w2)
                  | (inr _, w2) => (inr true, called s1 edit w2)
                  end
              end
          end
      end
  end.
Proof.
  unfold set_issue_due_date, try_except_cpe, bind, run, loads, lift, called.
  destruct (subprocess_run (view_cmd n) (world s)) as [[e|out] w]; simpl.
  - now destruct (is_CalledProcessError e).
  - destruct (json_loads out) as [data|]; simpl; [|reflexivity].
    destruct (body_of data) as [e|body] eqn:Eb; simpl.
    + now rewrite (body_of_error _ _ Eb).
    + destruct (py_in (due_marker d) body) as [e|[|]] eqn:Ein; simpl.
      * now rewrite (py_in_error _ _ _ Ein).
      * reflexivity.
      * destruct (subprocess_run _ w) as [[e|out2] w2]; simpl.
        -- now destruct (is_CalledProcessError e).
        -- reflexivity.
Qed.

(** The calls of [set_issue_due_date]: the view command, then at most one
    edit, and that one only after the marker was looked for in the body
    and not found. *)
Lemma set_issue_due_date_calls n d s :
  exists tail,
    calls (snd (set_issue_due_date n d s)) = (calls s ++ view_cmd n :: tail)%list /\
    (tail = [] \/
     exists body,
       fetched_body n s = Some body /\
       py_in (due_marker d) body = inr false /\
       tail = [edit_body_cmd n (new_body body d)]).
Proof.
  rewrite set_issue_due_date_unfold. unfold fetched_body.
  destruct (subprocess_run (view_cmd n) (world s)) as [[e|out] w]; simpl.
  - exists []. split; [reflexivity | now left].
  - destruct (json_loads out) as [data|]; simpl.
    2: { exists []. split; [reflexivity | now left]. }
    destruct (body_of data) as [e|body]; simpl.
    { exists []. split; [reflexivity | now left]. }
    destruct (py_in (due_marker d) body) as [e|[|]] eqn:Ein; simpl.
    1,2: exists []; split; [reflexivity | now left].
    exists [edit_body_cmd n (new_body body d)]. split.
    + destruct (subprocess_run _ w) as [[e|out2] w2]; simpl;
        now rewrite <- app_assoc.
    + right. exists body. repeat split. exact Ein.
Qed.

(** The text of the body when the answer carries a string, a null or no
    body at all. *)
Definition body_text (data : json) : option string :=
  match data with
  | JObj fields =>
      match lookup "body" fields with
      | None | Some JNull => Some EmptyString
      | Some (JStr b) => Some b
      | Some _ => None
      end
  | _ => None
  end.

Lemma body_of_text data old : body_text data = Some old -> body_of data = inr (JStr old).
Proof.
  unfold body_text, body_of, dict_get. destruct data; try discriminate.
  destruct (lookup "body" fields) as [[]|]; try discriminate;
    intros H; injection H as <-; try reflexivity.
  simpl. now destruct s as [|c s'].
Qed.

Lemma new_body_text old d :
  new_body (JStr old) d =
    if (old =? EmptyString)%string then due_marker d else old ++ nl ++ nl ++ due_marker d.
Proof. unfold new_body. simpl. now destruct (old =? EmptyString)%string. Qed.

(** C1. For every issue and every date string, [set_issue_due_date] first
    issues the view command that fetches the body, and issues a body edit
    only if the marker [**Due Date:** <date>] was not found in that body;
    when the body is a text that contains the marker (or is the marker),
    the view command is the only call and the operation reports success,
    so a second marker for the same date is never appended. *)
Theorem due_date_edit_only_when_marker_absent n d s :
  exists tail,
    calls (snd (set_issue_due_date n d s)) = (calls s ++ view_cmd n :: tail)%list /\
    (tail = [] \/
     exists body,
       fetched_body n s = Some body /\
       py_in (due_marker d) body = inr false /\
       tail = [edit_body_cmd n (new_body body d)]) /\
    (forall b pre post,
       fetched_body n s = Some (JStr b) ->
       b = pre ++ due_marker d ++ post ->
       tail = [] /\ fst (set_issue_due_date n d s) = inr true).
Proof.
  destruct (set_issue_due_date_calls n d s) as (tail & Hcalls & Htail).
  exists tail. split; [exact Hcalls|]. split; [exact Htail|].
  intros b pre post Hb Hsub.
  assert (Hin : str_in (due_marker d) b = true)
    by (apply PyFacts.str_in_iff; now exists pre, post).
  split.
  - destruct Htail as [->|(body & Hf & Hno & _)]; [reflexivity|].
    rewrite Hb in Hf. injection Hf as <-. simpl in Hno. congruence.
  - rewrite set_issue_due_date_unfold. unfold fetched_body in Hb.
    destruct (subprocess_run (view_cmd n) (world s)) as [[e|out] w]; [discriminate|].
    simpl. destruct (json_loads out) as [data|]; [|discriminate].
    destruct (body_of data) as [e|body]; [discriminate|].
    injection Hb as ->. simpl. now rewrite Hin.
Qed.

(** C9. When the body read is a text (or null, or absent) that lacks the
    marker, the edit that [set_issue_due_date] issues writes the old body
    followed by a blank line and the marker, or the marker alone when the
    old body is empty; the old body is a prefix of the new one. *)
Theorem due_date_edit_appends_marker n d s out w data old :
  subprocess_run (view_cmd n) (world s) = (inr out, w) ->
  json_loads out = Some data ->
  body_text data = Some old ->
  str_in (due_marker d) old = false ->
  let body' :=
    if (old =? EmptyString)%string then due_marker d else old ++ nl ++ nl ++ due_marker d in
  calls (snd (set_issue_due_date n d s))
    = (calls s ++ [view_cmd n; edit_body_cmd n body'])%list /\
  String.prefix old body' = true.
Proof.
  intros Hrun Hload Htext Hno body'. split.
  - rewrite set_issue_due_date_unfold, Hrun. simpl. rewrite Hload.
    rewrite (body_of_text _ _ Htext). simpl. rewrite Hno.
    rewrite new_body_text. fold body'.
    destruct (subprocess_run _ w) as [[e|out2] w2]; simpl;
      now rewrite <- app_assoc.
  - subst body'. destruct (String.eqb_spec old EmptyString) as [->|_].
    + unfold due_marker. reflexivity.
    + apply PyFacts.prefix_append.
Qed.

(** [data['data']['repository']['issue']['id']] *)
Definition node_id_of (data : json) : exn + json :=
  match subscript data "data" with
  | inl e => inl e
  | inr d1 =>
      match subscript d1 "repository" with
      | inl e => inl e
      | inr d2 =>
          match subscript d2 "issue" with
          | inl e => inl e
          | inr d3 => subscript d3 "id"
          end
      end
  end.

Lemma get_issue_node_id_unfold n s :
  get_issue_node_id n s =
  match subprocess_run (node_id_cmd n) (world s) with
  | (inl e, w) => (inl e, called s (node_id_cmd n) w)
  | (inr out, w) =>
      (match json_loads out with
       | None => inl JSONDecodeError
       | Some data => node_id_of data
       end, called s (node_id_cmd n) w)
  end.
Proof.
  unfold get_issue_node_id, bind, run, loads, lift, called, node_id_of.
  destruct (subprocess_run (node_id_cmd n) (world s)) as [[e|out] w]; simpl;
    [reflexivity|].
  destruct (json_loads out) as [data|]; simpl; [|reflexivity].
  destruct (subscript data "data") as [e|d1]; [reflexivity|].
  destruct (subscript d1 "repository") as [e|d2]; [reflexivity|].
  destruct (subscript d2 "issue") as [e|d3]; reflexivity.
Qed.

Lemma add_issue_to_project_already pid node s cmd rc stderr w :
  subprocess_run (add_cmd pid node) (world s)
    = (inl (CalledProcessError cmd rc stderr), w) ->
  already_there stderr = true ->
  add_issue_to_project pid node s = (inr JNull, called s (add_cmd pid node) w).
Proof.
  intros Hrun Hthere.
  unfold add_issue_to_project, try_except_cpe, bind, run.
  rewrite Hrun. simpl. now rewrite Hthere.
Qed.

Lemma set_issue_milestone_failed n m s cmd rc stderr w :
  subprocess_run (milestone_cmd n m) (world s)
    = (inl (CalledProcessError cmd rc stderr), w) ->
  set_issue_milestone n m s = (inr false, called s (milestone_cmd n m) w).
Proof.
  intros Hrun. unfold set_issue_milestone, try_except_cpe, bind, run.
  now rewrite Hrun.
Qed.

Definition milestone_of (t : assignment) : string :=
  let '(_, _, milestone, _) := t in milestone.

Definition date_of (t : assignment) : string :=
  let '(_, _, _, date_str) := t in date_str.

(** The first chunk printed for a tuple. *)
Definition issue_header (t : assignment) : string :=
  "  Issue #" ++ str_int (issue_num_of t) ++ "... ".

(** The statements of the [try] after the issue is in its project. *)
Definition after_project (t : assignment) : M unit :=
  milestone_step t ;; due_date_step t ;; print (" " ++ check_mark ++ nl).

(** The statements of the [try] after the milestone step. *)
Definition after_milestone (t : assignment) : M unit :=
  due_date_step t ;; print (" " ++ check_mark ++ nl).

Lemma after_milestone_calls t s :
  calls (snd (after_milestone t s))
    = calls (snd (set_issue_due_date (issue_num_of t) (date_of t) s)).
Proof.
  destruct t as [[[n ph] ms] d].
  unfold after_milestone, due_date_step, bind, print, ret. simpl.
  destruct (set_issue_due_date n d s) as [[e|[|]] s1]; reflexivity.
Qed.

Lemma after_milestone_returns t s ok s1 :
  set_issue_due_date (issue_num_of t) (date_of t) s = (inr ok, s1) ->
  exists s2, after_milestone t s = (inr tt, s2).
Proof.
  destruct t as [[[n ph] ms] d]. simpl. intros H.
  unfold after_milestone, due_date_step, bind, print, ret. rewrite H.
  destruct ok; eexists; reflexivity.
Qed.

Lemma process_issue_calls pid t a s :
  calls (snd (process_issue pid t a s)) = calls (snd (issue_steps pid t s)).
Proof.
  unfold process_issue. now destruct (issue_steps pid t s) as [[e|[]] s1].
Qed.

(** C2, as the code has it. When the add-to-project call exits with a
    non-zero status and its standard error, put in lower case, contains
    [already exists] or [already added], [add_issue_to_project] returns
    [None] instead of raising, and the turn prints [already in project] and
    goes on with the milestone and due-date steps.  The outcome of the
    tuple is then that of these later steps: when they raise nothing the
    tuple is counted as processed and the failure list is left as it was,
    and when one of them raises it is that exception which is recorded. *)
Theorem already_in_project_counts_as_success pid t a s node s1 cmd rc stderr w :
  get_issue_node_id (issue_num_of t) (printed s (issue_header t)) = (inr node, s1) ->
  subprocess_run (add_cmd pid node) (world s1)
    = (inl (CalledProcessError cmd rc stderr), w) ->
  (exists pre post, lower stderr = pre ++ "already exists" ++ post) \/
  (exists pre post, lower stderr = pre ++ "already added" ++ post) ->
  let s2 := printed (called s1 (add_cmd pid node) w) "already in project, " in
  add_issue_to_project pid node s1 = (inr JNull, called s1 (add_cmd pid node) w) /\
  lookup_and_add pid t s = (inr tt, s2) /\
  (forall s3,
     after_project t s2 = (inr tt, s3) ->
     process_issue pid t a s = (inr (Tally (processed a + 1) (errors a)), s3)) /\
  (forall e s3,
     after_project t s2 = (inl e, s3) ->
     process_issue pid t a s
       = (inr (Tally (processed a) (errors a ++ [(issue_num_of t, str_exn e)])),
          printed s3 (error_line e))).
Proof.
  intros Hnode Hrun Hmsg s2.
  assert (Hthere : already_there stderr = true).
  { unfold already_there. apply orb_true_iff.
    destruct Hmsg as [H|H]; [left|right]; now apply PyFacts.str_in_iff. }
  pose proof (add_issue_to_project_already _ _ _ _ _ _ _ Hrun Hthere) as Hadd.
  assert (Hla : lookup_and_add pid t s = (inr tt, s2)).
  { destruct t as [[[n ph] ms] d].
    change (issue_num_of (n, ph, ms, d)) with n in *.
    unfold issue_header in Hnode. change (issue_num_of (n, ph, ms, d)) with n in Hnode.
    unfold lookup_and_add, bind. rewrite print_eq, Hnode, Hadd. reflexivity. }
  split; [exact Hadd|]. split; [exact Hla|].
  assert (Hsteps : issue_steps pid t s = after_project t s2)
    by (unfold issue_steps, bind; now rewrite Hla).
  split.
  - intros s3 Hrest. apply process_issue_ok. now rewrite Hsteps.
  - intros e s3 Hrest. apply process_issue_raised. now rewrite Hsteps.
Qed.

(** C5, as the code has it. A set-milestone call that exits with a
    non-zero status is swallowed by [set_issue_milestone]: the milestone
    step ends normally and prints nothing, and whatever happens next the
    due-date step is attempted, its view command following the failed call.
    Nothing is recorded for the milestone: when the due-date step raises
    nothing the tuple is counted as processed with the failure list as it
    was, and when it raises it is that exception which is recorded. *)
Theorem milestone_failure_is_silent pid t a s s1 m cmd rc stderr w :
  lookup_and_add pid t s = (inr tt, s1) ->
  milestone_number (milestone_of t) = inr m ->
  subprocess_run (milestone_cmd (issue_num_of t) m) (world s1)
    = (inl (CalledProcessError cmd rc stderr), w) ->
  let s2 := called s1 (milestone_cmd (issue_num_of t) m) w in
  set_issue_milestone (issue_num_of t) m s1 = (inr false, s2) /\
  milestone_step t s1 = (inr tt, s2) /\
  (exists tail,
     calls (snd (process_issue pid t a s))
       = (calls s2 ++ view_cmd (issue_num_of t) :: tail)%list) /\
  (forall ok s3,
     set_issue_due_date (issue_num_of t) (date_of t) s2 = (inr ok, s3) ->
     fst (process_issue pid t a s) = inr (Tally (processed a + 1) (errors a))) /\
  (forall e s3,
     set_issue_due_date (issue_num_of t) (date_of t) s2 = (inl e, s3) ->
     fst (process_issue pid t a s)
       = inr (Tally (processed a) (errors a ++ [(issue_num_of t, str_exn e)]))).
Proof.
  intros Hla Hm Hrun s2.
  pose proof (set_issue_milestone_failed _ _ _ _ _ _ _ Hrun) as Hset. fold s2 in Hset.
  assert (Hstep : milestone_step t s1 = (inr tt, s2)).
  { destruct t as [[[n ph] ms] d].
    change (issue_num_of (n, ph, ms, d)) with n in *.
    change (milestone_of (n, ph, ms, d)) with ms in *.
    unfold milestone_step, bind, lift. now rewrite Hm, Hset. }
  assert (Hsteps : issue_steps pid t s = after_milestone t s2).
  { unfold issue_steps, bind. rewrite Hla, Hstep. reflexivity. }
  split; [exact Hset|]. split; [exact Hstep|]. split; [|split].
  - rewrite process_issue_calls, Hsteps, after_milestone_calls.
    destruct (set_issue_due_date_calls (issue_num_of t) (date_of t) s2)
      as (tail & Hcalls & _).
    now exists tail.
  - intros ok s3 Hdue.
    destruct (after_milestone_returns t s2 ok s3 Hdue) as (s4 & Hafter).
    rewrite (process_issue_ok pid t a s s4) by (rewrite Hsteps; exact Hafter).
    reflexivity.
  - intros e s3 Hdue.
    assert (Hafter : after_milestone t s2 = (inl e, s3)).
    { destruct t as [[[n ph] ms] d].
      change (issue_num_of (n, ph, ms, d)) with n in *.
      change (date_of (n, ph, ms, d)) with d in *.
      unfold after_milestone, due_date_step, bind. now rewrite Hdue. }
    rewrite (process_issue_raised pid t a s e s3) by (rewrite Hsteps; exact Hafter).
    reflexivity.
Qed.

(** The two answers by which the client reports that an issue does not
    exist: a non-zero exit status, or a document whose [issue] is null;
    with the exception [get_issue_node_id] then raises. *)
Inductive reports_missing : exn + string -> exn -> Prop :=
| missing_by_exit cmd rc stderr :
    reports_missing (inl (CalledProcessError cmd rc stderr))
                    (CalledProcessError cmd rc stderr)
| missing_by_null out data d1 d2 :
    json_loads out = Some data ->
    subscript data "data" = inr d1 ->
    subscript d1 "repository" = inr d2 ->
    subscript d2 "issue" = inr JNull ->
    reports_missing (inr out) TypeError.

(** C6, as the code has it. For an issue the client reports missing,
    [get_issue_node_id] raises [CalledProcessError] or [TypeError], neither
    of them a [LookupError]; the lookup is the only call of the turn, the
    failure is recorded under the issue number, and the loop goes on with
    the next tuple. *)
Theorem missing_issue_fails_its_tuple_only pid t rest a s answer w e :
  subprocess_run (node_id_cmd (issue_num_of t)) (world s) = (answer, w) ->
  reports_missing answer e ->
  let s1 := called (printed s (issue_header t)) (node_id_cmd (issue_num_of t)) w in
  let a1 := Tally (processed a) (errors a ++ [(issue_num_of t, str_exn e)]) in
  is_LookupError e = false /\
  get_issue_node_id (issue_num_of t) (printed s (issue_header t)) = (inl e, s1) /\
  process_issue pid t a s = (inr a1, printed s1 (error_line e)) /\
  process_issues pid (t :: rest) a s
    = process_issues pid rest a1 (printed s1 (error_line e)).
Proof.
  intros Hrun Hmissing s1 a1.
  assert (Hget : get_issue_node_id (issue_num_of t) (printed s (issue_header t))
                 = (inl e, s1)).
  { rewrite get_issue_node_id_unfold. simpl world. rewrite Hrun.
    destruct Hmissing as [c rc err | out data d1 d2 Hload H1 H2 H3]; [reflexivity|].
    rewrite Hload. unfold node_id_of. now rewrite H1, H2, H3. }
  assert (Hsteps : issue_steps pid t s = (inl e, s1)).
  { destruct t as [[[n ph] ms] d]. subst s1.
    unfold issue_header in *. change (issue_num_of (n, ph, ms, d)) with n in *.
    unfold issue_steps, lookup_and_add, bind. now rewrite print_eq, Hget. }
  pose proof (process_issue_raised pid t a s e s1 Hsteps) as Hturn.
  repeat split.
  - now destruct Hmissing.
  - exact Hget.
  - exact Hturn.
  - simpl. unfold bind. now rewrite Hturn.
Qed.

End Steps.

(** ** Whole runs *)

Section Runs.
Context `{rt : Runtime} `{tr : Transport}.

(** The summary is printed after the loops, and is the last chunk when no
    tuple failed. *)
Lemma main_on_summary table s r s' :
  main_on table s = (inr r, s') ->
  exists before after,
    stdout s' = (before ++ summary_line (processed (final r)) (total r) :: after)%list /\
    (errors (final r) = [] -> after = []).
Proof.
  unfold main_on, bind. intros H.
  destruct (process_projects table (Tally 0 []) s) as [[e|a] s1]; [discriminate|].
  rewrite print_eq in H. unfold ret in H.
  destruct (errors a) as [|err errs] eqn:Eerrs.
  - injection H as <- <-. exists (stdout s1), []. split; [reflexivity | reflexivity].
  - rewrite print_eq in H.
    match type of H with
    | context [print_errors ?l ?s0] => remember s0 as s2 eqn:Es2
    end.
    assert (Hframe : forall errs0 s0 s3,
               print_errors errs0 s0 = (inr tt, s3) ->
               exists more, stdout s3 = (stdout s0 ++ more)%list).
    { induction errs0 as [|[n msg] rest IH]; intros s0 s3 Hp.
      - injection Hp as <-. exists []. now rewrite app_nil_r.
      - simpl in Hp. unfold bind in Hp. rewrite print_eq in Hp.
        apply IH in Hp. destruct Hp as (more & ->). simpl.
        rewrite <- app_assoc. now eexists. }
    destruct (print_errors_returns (err :: errs) s2) as (s3 & E3).
    rewrite E3 in H. injection H as <- <-.
    destruct (Hframe _ _ _ E3) as (more & ->). subst s2. simpl.
    exists (stdout s1). eexists. split.
    + rewrite <- !app_assoc. simpl. reflexivity.
    + simpl. rewrite Eerrs. discriminate.
Qed.

(** C3, as the code has it. For a table whose project numbers are all in
    the project map, and whatever the client does, the run ends normally,
    with exit status 0; an exception raised in the turn of one tuple ends
    that turn where it was raised, is recorded with the issue number and
    its message, and the loop goes on with the next tuple. *)
Theorem failures_are_contained table s :
  resolvable table = true ->
  (exists r s', main_on table s = (inr r, s')) /\
  exit_status (fst (main_on table s)) = 0 /\
  (forall pid t rest a s0 e s1,
     issue_steps pid t s0 = (inl e, s1) ->
     let a1 := Tally (processed a) (errors a ++ [(issue_num_of t, str_exn e)]) in
     process_issue pid t a s0 = (inr a1, printed s1 (error_line e)) /\
     process_issues pid (t :: rest) a s0
       = process_issues pid rest a1 (printed s1 (error_line e))).
Proof.
  intros Hres. destruct (main_on_total table Hres s) as (r & s' & E).
  split; [now exists r, s'|]. split; [now rewrite E|].
  intros pid t rest a s0 e s1 Hsteps a1.
  pose proof (process_issue_raised pid t a s0 e s1 Hsteps) as Hturn.
  split; [exact Hturn|]. simpl. unfold bind. now rewrite Hturn.
Qed.

(** When every lookup fails, every tuple of the table ends in the failure
    list and none is counted as processed. *)
Lemma failing_lookups_fail_every_tuple table s r s' :
  (forall n w, exists e w', subprocess_run (node_id_cmd n) w = (inl e, w')) ->
  main_on table s = (inr r, s') ->
  processed (final r) = 0 /\
  map fst (errors (final r)) = map issue_num_of (all_tuples table).
Proof.
  intros Hfail Hmain.
  destruct (main_on_inv _ _ _ _ Hmain) as (_ & s1 & Hloop).
  assert (Hall : forall pid t, In t (all_tuples table) ->
                 forall s0, raises pid t s0 = (fun _ => true) t).
  { intros pid [[[n ph] ms] d] _ s0. unfold raises, issue_steps, lookup_and_add, bind.
    rewrite print_eq, get_issue_node_id_unfold.
    destruct (Hfail n (world (printed s0 ("  Issue #" ++ str_int n ++ "... "))))
      as (e & w' & ->).
    reflexivity. }
  destruct (process_projects_subset _ table Hall _ _ _ _ Hloop) as [Hp He].
  rewrite Hp, He. simpl.
  assert (Hnone : forall l : list assignment, filter (fun _ => negb true) l = []).
  { induction l; simpl; auto. }
  assert (Hevery : forall l : list assignment, filter (fun _ => true) l = l).
  { induction l; simpl; congruence. }
  now rewrite Hnone, Hevery.
Qed.

(** When the tuples whose turn raises are those of a fixed subset of the
    table, a run that reaches its end has [processed] equal to the number
    of tuples minus the size of the subset, and the issue numbers of its
    failure list are those of the subset, in table order; the summary is
    printed, and is the last chunk of the output when the subset is
    empty. *)
Theorem failed_subset_determines_tally (bad : assignment -> bool) table s r s' :
  (forall pid t, In t (all_tuples table) -> forall s0, raises pid t s0 = bad t) ->
  main_on table s = (inr r, s') ->
  let failed := filter bad (all_tuples table) in
  total r = Z.of_nat (length (all_tuples table)) /\
  processed (final r) = total r - Z.of_nat (length failed) /\
  map fst (errors (final r)) = map issue_num_of failed /\
  exists before after,
    stdout s' = (before ++ summary_line (processed (final r)) (total r) :: after)%list /\
    (failed = [] -> after = []).
Proof.
  intros Hbad Hmain failed.
  destruct (main_on_inv _ _ _ _ Hmain) as (Htotal & s1 & Hloop).
  destruct (process_projects_subset bad table Hbad _ _ _ _ Hloop) as [Hp He].
  simpl in Hp, He. fold failed in He.
  assert (Hsplit : length (all_tuples table)
                   = (length (filter (fun t => negb (bad t)) (all_tuples table))
                      + length failed)%nat).
  { subst failed. apply filter_split_length. }
  rewrite Htotal, total_of_all_tuples.
  split; [reflexivity|]. split; [lia|]. split; [exact He|].
  destruct (main_on_summary _ _ _ _ Hmain) as (before & after & Hout & Hlast).
  exists before, after. rewrite Htotal, total_of_all_tuples in Hout.
  split; [exact Hout|].
  intros Hnone. apply Hlast. rewrite Hnone in He.
  destruct (errors (final r)); [reflexivity | discriminate].
Qed.

(** C8. At the end of a run, [processed] plus the length of the failure
    list is [total], the number of tuples of the table; the turn of one
    tuple either adds one to [processed] and leaves the failure list, or
    appends one entry for its issue and leaves [processed]. *)
Theorem processed_plus_failures_is_total table s r s' :
  main_on table s = (inr r, s') ->
  total r = Z.of_nat (length (all_tuples table)) /\
  processed (final r) + Z.of_nat (length (errors (final r))) = total r /\
  (forall pid t a s0,
     exists a' s1,
       process_issue pid t a s0 = (inr a', s1) /\
       ((processed a' = processed a + 1 /\ errors a' = errors a) \/
        (processed a' = processed a /\
         exists msg, errors a' = (errors a ++ [(issue_num_of t, msg)])%list))).
Proof.
  intros Hmain.
  destruct (main_on_inv _ _ _ _ Hmain) as (Htotal & s1 & Hloop).
  apply process_projects_inv in Hloop. destruct Hloop as [_ Hsum].
  simpl in Hsum. rewrite Htotal.
  split; [apply total_of_all_tuples|]. split; [lia|].
  intros pid t a s0.
  destruct (process_issue_cases pid t a s0) as (a' & s2 & E & Hcase).
  exists a', s2. split; [exact E|].
  destruct Hcase as [(_ & Hp & He) | (_ & Hp & He)]; [left | right]; now split.
Qed.

(** The script itself always reaches its end. *)
Lemma main_returns s : exists r s', main s = (inr r, s') /\ total r = 95.
Proof.
  assert (Hres : resolvable assignments = true) by (vm_compute; reflexivity).
  destruct (main_on_total assignments Hres s) as (r & s' & E).
  exists r, s'. split; [exact E|].
  destruct (main_on_inv _ _ _ _ E) as (-> & _). reflexivity.
Qed.

End Runs.

(** ** The static tables *)

Fixpoint keys_distinct {V : Type} (m : list (string * V)) : bool :=
  match m with
  | [] => true
  | (k, _) :: m' =>
      negb (existsb (fun kv => (fst kv =? k)%string) m') && keys_distinct m'
  end.

(** The dict literals of the script repeat no key, so reading them as
    association lists loses nothing. *)
Lemma static_keys_distinct :
  keys_distinct milestone_map = true /\ keys_distinct project_map = true /\
  NoDup (map fst assignments).
Proof.
  split; [reflexivity|]. split; [reflexivity|].
  unfold assignments. simpl map.
  repeat (constructor; [simpl; intuition discriminate|]). constructor.
Qed.

Definition milestone_known (t : assignment) : bool :=
  match milestone_number (milestone_of t) with
  | inr _ => true
  | inl _ => false
  end.

Definition project_unique (project_num : Z) : bool :=
  match filter (fun kv => number (snd kv) =? project_num) project_map with
  | [(name, p)] =>
      match project_name_of project_num, project_id_of name with
      | inr name', inr i => (name' =? name)%string && (i =? id p)%string
      | _, _ => false
      end
  | _ => false
  end.

(** C10. Every milestone name of an assignment tuple is a key of the
    milestone map, and every project number of the assignment table is the
    [number] of exactly one entry of the project map; so the lookups
    [milestone_map[milestone]], [[...][0]] and [project_map[project_name]]
    of the main loop all return. *)
Theorem static_tables_are_consistent :
  Forall (fun t => exists n, milestone_number (milestone_of t) = inr n)
         (all_tuples assignments) /\
  Forall (fun entry =>
            exists name p,
              filter (fun kv => number (snd kv) =? fst entry) project_map = [(name, p)] /\
              project_name_of (fst entry) = inr name /\
              project_id_of name = inr (id p))
         assignments.
Proof.
  split; apply Forall_forall.
  - intros t Hin.
    assert (H : forallb milestone_known (all_tuples assignments) = true)
      by (vm_compute; reflexivity).
    rewrite forallb_forall in H. specialize (H t Hin). unfold milestone_known in H.
    destruct (milestone_number (milestone_of t)) as [e|n]; [discriminate|].
    now exists n.
  - intros entry Hin.
    assert (H : forallb (fun e => project_unique (fst e)) assignments = true)
      by (vm_compute; reflexivity).
    rewrite forallb_forall in H. specialize (H entry Hin). unfold project_unique in H.
    destruct (filter _ project_map) as [|[name p] [|]]; try discriminate.
    destruct (project_name_of (fst entry)) as [e|name']; [discriminate|].
    destruct (project_id_of name) as [e|i] eqn:Eid; [discriminate|].
    apply andb_true_iff in H. destruct H as [Hn Hi].
    apply String.eqb_eq in Hn, Hi. subst. now exists name, p.
Qed.

(** ** Stubs that fail the lookup of some issues *)


Section Stubs.
Context `{rt : Runtime} `{tr : Transport}.










End Stubs.

End SetupProjectsSpec.

(** * Properties of scripts/configure_required_checks.py *)

Module RequiredChecksSpec.

Import RequiredChecks.
Local Open Scope py_scope.
Local Open Scope Z_scope.

(** The only command the script issues. *)
Definition fetch_cmd : list string :=
  [ "gh"; "api"; "repos/RdHamilton/MTGA-Companion/rulesets/9523549" ].

Lemma fetch_cmd_eq : "gh" :: "api" :: split ruleset_path = fetch_cmd.
Proof. reflexivity. Qed.

(** What [update_ruleset_with_required_checks] makes of a decoded ruleset. *)
Definition verdict (current : json) : exn + bool :=
  if negb (truthy current) then inr false
  else
    match dict_get current "name" JNull with
    | inl e => inl e
    | inr _ =>
        match dict_get current "rules" (JArr []) with
        | inl e => inl e
        | inr rules =>
            match iterate rules with
            | inl e => inl e
            | inr items =>
                match rule_types items with
                | inl e => inl e
                | inr _ => any_required items
                end
            end
        end
    end.

Definition is_required (r : json) : bool :=
  match r with
  | JObj fields =>
      match lookup "type" fields with
      | Some (JStr s) => (s =? "required_status_checks")%string
      | _ => false
      end
  | _ => false
  end.

Lemma rules_pass (items : list json) :
  match rule_types items with
  | inl _ => forallb is_object items = false
  | inr _ => forallb is_object items = true /\
             any_required items = inr (existsb is_required items)
  end.
Proof.
  induction items as [|r rest IH]; simpl; [now split|].
  destruct r; simpl; try reflexivity.
  destruct (rule_types rest) as [e|tys].
  - destruct (lookup "type" fields); exact IH.
  - destruct IH as [Hall Hany]. rewrite Hany.
    destruct (lookup "type" fields) as [[]|]; simpl; split; try exact Hall;
      try reflexivity.
    now destruct (s =? "required_status_checks")%string.
Qed.

Lemma strings_fail (keys : list json) :
  Forall (fun k => exists s, k = JStr s) keys ->
  keys = [] \/ exists e, rule_types keys = inl e.
Proof.
  intros H. destruct H as [|k rest [s ->] _]; [now left|].
  right. simpl. now eexists.
Qed.

Lemma verdict_obj kv fields :
  verdict (JObj (kv :: fields)) =
  match lookup "rules" (kv :: fields) with
  | None => inr false
  | Some rules =>
      match iterate rules with
      | inl e => inl e
      | inr items =>
          match rule_types items with
          | inl e => inl e
          | inr _ => any_required items
          end
      end
  end.
Proof.
  unfold verdict, dict_get. cbn [truthy negb].
  destruct (lookup "name" (kv :: fields)); destruct (lookup "rules" (kv :: fields)); reflexivity.
Qed.

Lemma verdict_not_obj current :
  is_object current = false -> verdict current <> inr true.
Proof.
  unfold verdict. destruct current; simpl; try discriminate.
  - destruct b; discriminate.
  - destruct (negb (z =? 0)%Z); discriminate.
  - destruct nonzero; discriminate.
  - destruct (negb (s =? EmptyString)%string); discriminate.
  - destruct items; discriminate.
Qed.

Lemma list_verdict items :
  match rule_types items with
  | inl e => inl e
  | inr _ => any_required items
  end = inr true <->
  forallb is_object items = true /\ existsb is_required items = true.
Proof.
  pose proof (rules_pass items) as Hp.
  destruct (rule_types items) as [e|tys].
  - rewrite Hp. split; [discriminate | intros [H _]; discriminate].
  - destruct Hp as [-> ->]. split.
    + intros H. injection H as ->. now split.
    + intros [_ ->]. reflexivity.
Qed.

Lemma strings_verdict keys :
  Forall (fun k => exists s, k = JStr s) keys ->
  match rule_types keys with
  | inl e => inl e
  | inr _ => any_required keys
  end <> inr true.
Proof.
  intros H. destruct (strings_fail keys H) as [->|[e ->]]; discriminate.
Qed.

Lemma verdict_true_iff current :
  verdict current = inr true <->
  ruleset_shaped current = true /\
  has_rule_of_type "required_status_checks" current = true.
Proof.
  destruct current as [| | | | |items|fields];
    try (split; [intros H; now apply verdict_not_obj in H | intros [H _]; discriminate]).
  destruct fields as [|kv fields].
  { split; [discriminate | intros [H _]; discriminate]. }
  rewrite verdict_obj.
  unfold ruleset_shaped, has_rule_of_type, rules_of.
  destruct (lookup "rules" (kv :: fields)) as [rules|].
  2: { split; [discriminate | intros [_ H]; discriminate]. }
  destruct rules as [| | | | s |items|rfields]; cbn [iterate];
    try (split; [discriminate | intros [H _]; discriminate]).
  - split; [|intros [H _]; discriminate].
    intros H. exfalso. revert H. apply strings_verdict.
    apply Forall_forall. intros k Hin. apply in_map_iff in Hin.
    destruct Hin as (c & <- & _). now eexists.
  - apply list_verdict.
  - split; [|intros [H _]; discriminate].
    intros H. exfalso. revert H. apply strings_verdict.
    apply Forall_forall. intros k Hin. apply in_map_iff in Hin.
    destruct Hin as (c & <- & _). now eexists.
Qed.

Section Script.
Context `{rt : Runtime} `{tr : Transport}.

(** The decoded answer to the fetch, when there is one. *)
Definition fetched (s : St) : option json :=
  match subprocess_run fetch_cmd (world s) with
  | (inr out, _) => json_loads out
  | (inl _, _) => None
  end.

Lemma update_unfold s :
  fst (update_ruleset_with_required_checks s) =
    match subprocess_run fetch_cmd (world s) with
    | (inl (CalledProcessError _ _ _), _) => inr false
    | (inl JSONDecodeError, _) => inr false
    | (inl e, _) => inl e
    | (inr out, _) =>
        match json_loads out with
        | None => inr false
        | Some current => verdict current
        end
    end /\
  calls (snd (update_ruleset_with_required_checks s)) = (calls s ++ [fetch_cmd])%list.
Proof.
  unfold update_ruleset_with_required_checks, get_current_ruleset, run_gh_command.
  unfold bind, run, lift. cbv beta. rewrite fetch_cmd_eq.
  destruct (subprocess_run fetch_cmd (world s)) as [[e|out] w].
  - destruct e; split; reflexivity.
  - destruct (json_loads out) as [current|]; [|split; reflexivity].
    unfold verdict. destruct (truthy current); cbn [negb]; [|split; reflexivity].
    destruct (dict_get current "name" JNull) as [e|name]; [split; reflexivity|].
    destruct (dict_get current "rules" (JArr [])) as [e|rules]; [split; reflexivity|].
    destruct (iterate rules) as [e|items]; [split; reflexivity|].
    destruct (rule_types items) as [e|tys]; [split; reflexivity|].
    destruct (any_required items) as [e|[|]]; split; reflexivity.
Qed.

Lemma script_unfold s :
  fst (script s) =
    match fst (update_ruleset_with_required_checks s) with
    | inr true => 0
    | _ => 1
    end /\
  snd (script s) = snd (update_ruleset_with_required_checks s).
Proof.
  unfold script.
  destruct (update_ruleset_with_required_checks s) as [[e|[|]] s']; split; reflexivity.
Qed.

(** [current.get('name')] *)
Definition name_of (current : json) : json :=
  match current with
  | JObj fields =>
      match lookup "name" fields with
      | Some v => v
      | None => JNull
      end
  | _ => JNull
  end.

(** [r.get('type')] *)
Definition type_of (r : json) : json :=
  match r with
  | JObj fields =>
      match lookup "type" fields with
      | Some v => v
      | None => JNull
      end
  | _ => JNull
  end.

(** The two lines that describe the ruleset fetched. *)
Definition current_ruleset_line (current : json) : string :=
  "Current ruleset: " ++ format (name_of current) ++ nl.

Definition current_rules_line (current : json) : string :=
  "Current rules: " ++ format (JArr (map type_of (rules_of current))) ++ nl.

Definition already_exists_line : string :=
  "Required status checks rule already exists in ruleset" ++ nl.

(** The manual instructions, as they reach the output. *)
Definition manual_instructions : list string :=
  [ nl ++ "To add required status checks, you have two options:" ++ nl;
    nl ++ "Option 1: Update the ruleset via GitHub UI" ++ nl;
    "1. Go to: https://github.com/RdHamilton/MTGA-Companion/settings/rules" ++ nl;
    "2. Click on ruleset ID 9523549" ++ nl;
    "3. Click 'Add rule' and select 'Required status checks'" ++ nl;
    "4. Add the following checks:" ++ nl;
    "   - Test (Linux)" ++ nl;
    "   - Lint" ++ nl;
    "   - Format Check" ++ nl;
    "5. Save the changes" ++ nl;
    nl ++ "Option 2: Set up branch protection (Recommended)" ++ nl;
    "1. Go to: https://github.com/RdHamilton/MTGA-Companion/settings/branches" ++ nl;
    "2. Click 'Add rule' or edit existing rule for 'main' branch" ++ nl;
    "3. Enable 'Require status checks to pass before merging'" ++ nl;
    "4. Select the following required checks:" ++ nl;
    "   - Test (Linux)" ++ nl;
    "   - Lint" ++ nl;
    "   - Format Check" ++ nl;
    "5. Optionally enable 'Require branches to be up to date before merging'" ++ nl;
    "6. Save the changes" ++ nl;
    nl ++ "Note: Branch protection is more flexible and easier to manage." ++ nl;
    "Rulesets are newer but may have limitations." ++ nl ].

Lemma print_instructions_eq s :
  print_instructions s
    = (inr tt, mkSt (world s) (calls s) (stdout s ++ manual_instructions)%list).
Proof.
  destruct s as [w c o].
  unfold print_instructions, bind, print, ret. cbn [world calls stdout].
  unfold REQUIRED_CHECKS. cbn [print_checks]. unfold bind, print, ret.
  cbn [world calls stdout].
  f_equal. f_equal. rewrite <- !app_assoc. now f_equal.
Qed.

Lemma rule_types_of_objects items :
  forallb is_object items = true -> rule_types items = inr (map type_of items).
Proof.
  induction items as [|r rest IH]; [reflexivity|].
  simpl. intros H. apply andb_true_iff in H. destruct H as [Hr Hrest].
  destruct r; try discriminate. simpl. rewrite (IH Hrest).
  now destruct (lookup "type" fields).
Qed.

(** What the script does with a ruleset of the expected shape. *)
Lemma shaped_ruleset_run s out w current :
  subprocess_run fetch_cmd (world s) = (inr out, w) ->
  json_loads out = Some current ->
  ruleset_shaped current = true ->
  update_ruleset_with_required_checks s =
    (inr (has_rule_of_type "required_status_checks" current),
     mkSt w (calls s ++ [fetch_cmd])
          (stdout s ++ [current_ruleset_line current; current_rules_line current]
             ++ (if has_rule_of_type "required_status_checks" current
                 then [already_exists_line]
                 else manual_instructions))%list).
Proof.
  intros Hrun Hload Hshape.
  assert (Hitems : forallb is_object (rules_of current) = true /\
                   dict_get current "name" JNull = inr (name_of current) /\
                   exists rules, dict_get current "rules" (JArr []) = inr rules /\
                                 iterate rules = inr (rules_of current)).
  { unfold ruleset_shaped in Hshape. unfold rules_of, name_of, dict_get.
    destruct current as [| | | | | |fields]; try discriminate.
    destruct fields as [|kv fields]; [discriminate|].
    split; [|split; [now destruct (lookup "name" (kv :: fields))|]].
    - destruct (lookup "rules" (kv :: fields)) as [[]|]; try discriminate;
        [exact Hshape | reflexivity].
    - destruct (lookup "rules" (kv :: fields)) as [[]|]; try discriminate;
        eexists; split; reflexivity. }
  destruct Hitems as (Hall & Hname & rules & Hrules & Hiter).
  assert (Htruthy : truthy current = true)
    by (destruct current as [| | | | | |[|]]; try discriminate; reflexivity).
  pose proof (rules_pass (rules_of current)) as Hpass.
  rewrite (rule_types_of_objects _ Hall) in Hpass. destruct Hpass as [_ Hany].
  unfold update_ruleset_with_required_checks, get_current_ruleset, run_gh_command.
  unfold bind at 1. unfold run. rewrite fetch_cmd_eq, Hrun, Hload, Htruthy. cbn [negb].
  unfold bind, lift. rewrite Hname, Hrules, Hiter.
  rewrite (rule_types_of_objects _ Hall), Hany.
  change (existsb is_required (rules_of current))
    with (has_rule_of_type "required_status_checks" current).
  destruct (has_rule_of_type "required_status_checks" current).
  - unfold print, ret. cbn [world calls stdout]. rewrite <- !app_assoc. reflexivity.
  - unfold print at 1 2. rewrite print_instructions_eq. unfold ret.
    cbn [world calls stdout]. rewrite <- !app_assoc. reflexivity.
Qed.

(** C7, as the code has it. The script issues the one command that fetches
    the ruleset and nothing else; its exit status is 0 or 1, and it is 0
    exactly when the fetch succeeded and what it decoded is a ruleset, an
    object whose rules are all objects, that contains a rule of type
    [required_status_checks].  After the two lines that describe such a
    ruleset the script prints one line when the rule is there and the
    manual instructions, and these only, when it is not. *)
Theorem exit_status_reflects_ruleset_check s :
  calls (snd (script s)) = (calls s ++ [fetch_cmd])%list /\
  (fst (script s) = 0 \/ fst (script s) = 1) /\
  (fst (script s) = 0 <->
   exists current,
     fetched s = Some current /\
     ruleset_shaped current = true /\
     has_rule_of_type "required_status_checks" current = true) /\
  (forall current,
     fetched s = Some current ->
     ruleset_shaped current = true ->
     stdout (snd (script s)) =
       (stdout s ++ [current_ruleset_line current; current_rules_line current]
          ++ (if has_rule_of_type "required_status_checks" current
              then [already_exists_line]
              else manual_instructions))%list).
Proof.
  destruct (script_unfold s) as [Hcode Hstate].
  destruct (update_unfold s) as [Hres Hcalls].
  split; [now rewrite Hstate|].
  split; [|split].
  - rewrite Hcode. destruct (fst (update_ruleset_with_required_checks s)) as [e|[|]];
      [now right | now left | now right].
  - rewrite Hcode, Hres. unfold fetched.
    destruct (subprocess_run fetch_cmd (world s)) as [[e|out] w].
    + split; [destruct e; discriminate | intros (current & H & _); discriminate].
    + destruct (json_loads out) as [current|].
      * pose proof (verdict_true_iff current) as Hiff.
        destruct (verdict current) as [e|[|]].
        -- split; [discriminate|].
           intros (c & Hc & Hshape). injection Hc as <-.
           apply Hiff in Hshape. discriminate.
        -- split; [|reflexivity].
           intros _. exists current. split; [reflexivity|]. now apply Hiff.
        -- split; [discriminate|].
           intros (c & Hc & Hshape). injection Hc as <-.
           apply Hiff in Hshape. discriminate.
      * split; [discriminate | intros (current & H & _); discriminate].
  - intros current Hfetched Hshape. rewrite Hstate. unfold fetched in Hfetched.
    destruct (subprocess_run fetch_cmd (world s)) as [[e|out] w] eqn:Hrun;
      [discriminate|].
    now rewrite (shaped_ruleset_run s out w current Hrun Hfetched Hshape).
Qed.

(** Without the rule, all the script does after the fetch is print: the
    instructions end the output. *)
Lemma no_rule_prints_instructions s current :
  fetched s = Some current ->
  ruleset_shaped current = true ->
  has_rule_of_type "required_status_checks" current = false ->
  fst (script s) = 1 /\
  last (stdout (snd (script s))) EmptyString
    = "Rulesets are newer but may have limitations." ++ nl.
Proof.
  intros Hfetch Hshape Hnone.
  destruct (script_unfold s) as [Hcode Hstate]. rewrite Hcode, Hstate. clear Hcode Hstate.
  unfold fetched in Hfetch.
  unfold update_ruleset_with_required_checks, get_current_ruleset, run_gh_command.
  unfold bind, run, lift. cbv beta. rewrite fetch_cmd_eq.
  destruct (subprocess_run fetch_cmd (world s)) as [[e|out] w]; [discriminate|].
  rewrite Hfetch.
  assert (Hv : verdict current = inr false).
  { pose proof (verdict_true_iff current) as Hiff.
    destruct current as [| | | | | |fields]; try discriminate.
    destruct fields as [|kv fields]; [discriminate|].
    rewrite verdict_obj in *.
    unfold ruleset_shaped in Hshape. unfold has_rule_of_type, rules_of in Hnone.
    destruct (lookup "rules" (kv :: fields)) as [rules|]; [|reflexivity].
    destruct rules as [| | | | |items|]; try discriminate.
    cbn [iterate]. pose proof (rules_pass items) as Hp.
    destruct (rule_types items) as [e|tys]; [congruence|].
    destruct Hp as [_ ->]. f_equal. exact Hnone. }
  unfold verdict in Hv.
  assert (Ht : truthy current = true)
    by (destruct current as [| | | | | |[|]]; try discriminate; reflexivity).
  rewrite Ht in *. cbn [negb] in *.
  destruct (dict_get current "name" JNull) as [e|name]; [discriminate|].
  destruct (dict_get current "rules" (JArr [])) as [e|rules]; [discriminate|].
  destruct (iterate rules) as [e|items]; [discriminate|].
  destruct (rule_types items) as [e|tys]; [discriminate|].
  rewrite Hv. split; [reflexivity|].
  cbn. apply last_last.
Qed.

End Script.

End RequiredChecksSpec.

(** * Scenarios on the stub transports *)

Module Scenarios.

Import SetupProjects SetupProjectsSpec RequiredChecks RequiredChecksSpec Stub.
Local Open Scope Z_scope.

#[local] Existing Instance runtime.

Definition security_fix : assignment :=
  (31, "Phase 1: Security", "Security Fix", "2025-11-07").

Definition database_work : assignment :=
  (59, "Phase 2: Database", "Database Improvements", "2025-11-08").

Definition security_project : string := "PVT_kwHOABsZ684BHe6N".

(** First scenario of the specification: one issue, every call succeeds,
    the issue has an empty body. *)
Example first_run :
  let '(r, s) := @main_on runtime (transport (happy (body_doc EmptyString)))
                   one_issue (start _) in
  r = inr (Result 1 (Tally 1 [])) /\
  calls s = [ node_id_cmd 31;
              add_cmd security_project (JStr "I_1");
              milestone_cmd 31 2;
              view_cmd 31;
              edit_body_cmd 31 "**Due Date:** 2025-11-07" ] /\
  last (stdout s) EmptyString = nl ++ nl ++ "Completed: 1/1 issues processed" ++ nl.
Proof. vm_compute. repeat split. Qed.

(** Second scenario: the body already is the marker, and no edit is issued. *)
Example second_run :
  let '(r, s) := @main_on runtime
                   (transport (happy (body_doc "**Due Date:** 2025-11-07")))
                   one_issue (start _) in
  r = inr (Result 1 (Tally 1 [])) /\
  calls s = [ node_id_cmd 31;
              add_cmd security_project (JStr "I_1");
              milestone_cmd 31 2;
              view_cmd 31 ].
Proof. vm_compute. repeat split. Qed.

(** Every lookup of the script's own table fails: the run ends normally
    with all 95 tuples in the failure list. *)
Example every_lookup_fails :
  let '(r, s) := @main runtime (transport lookup_fails) (start _) in
  exists res,
    r = inr res /\ total res = 95 /\ processed (final res) = 0 /\
    map fst (errors (final res)) = map issue_num_of (all_tuples assignments).
Proof. vm_compute. eexists. repeat split. Qed.

Lemma due_date_edit_appends_marker_witness :
  calls (snd (@set_issue_due_date runtime
                (transport (happy (body_doc "Rotate the leaked token.")))
                31 "2025-11-07" (start _)))
    = [ view_cmd 31;
        edit_body_cmd 31 ("Rotate the leaked token." ++ nl ++ nl
                            ++ "**Due Date:** 2025-11-07") ] /\
  String.prefix "Rotate the leaked token."
    ("Rotate the leaked token." ++ nl ++ nl ++ "**Due Date:** 2025-11-07") = true.
Proof.
  apply (@due_date_edit_appends_marker runtime
           (transport (happy (body_doc "Rotate the leaked token.")))
           31 "2025-11-07" (start _)
           (body_doc "Rotate the leaked token.") tt
           (JObj [("body", JStr "Rotate the leaked token.")])
           "Rotate the leaked token."); reflexivity.
Defined.

Definition already_msg : string :=
  "GraphQL: Content Already Exists in this project (addProjectV2ItemById)".

(** The issue is already in the project, and the view of its body
    answers with something that is not JSON. *)
Definition already_then_garbled : answers :=
  Answers (ok node_doc)
          (fails "GraphQL: Content Already Exists in this project (addProjectV2ItemById)")
          (ok EmptyString) (ok "<html>") (ok EmptyString).

(** C2, the claim as stated fails. The add-to-project call fails with
    [already exists] in its standard error and the turn prints
    [already in project]; the view of the body then cannot be decoded, and
    the tuple ends in the failure list, not counted as processed. *)
Lemma already_in_project_can_still_fail :
  already_there already_msg = true /\
  answer already_then_garbled (add_cmd security_project (JStr "I_1"))
    = inl (CalledProcessError (add_cmd security_project (JStr "I_1")) 1 already_msg) /\
  fst (@process_issue runtime (transport already_then_garbled)
         security_project security_fix (Tally 0 []) (start _))
    = inr (Tally 0 [(31, "Expecting value")]) /\
  In "already in project, "
     (stdout (snd (@process_issue runtime (transport already_then_garbled)
                     security_project security_fix (Tally 0 []) (start _)))).
Proof. vm_compute. repeat split. tauto. Qed.

Lemma already_in_project_counts_as_success_witness :
  lower already_msg
    = "graphql: content " ++ "already exists" ++ " in this project (addprojectv2itembyid)" /\
  @add_issue_to_project runtime (transport already_in_project)
     security_project (JStr "I_1")
     (called (printed (start _) (issue_header security_fix)) (node_id_cmd 31) tt)
    = (inr JNull,
       called (called (printed (start _) (issue_header security_fix)) (node_id_cmd 31) tt)
              (add_cmd security_project (JStr "I_1")) tt) /\
  fst (@process_issue runtime (transport already_in_project)
         security_project security_fix (Tally 0 []) (start _))
    = inr (Tally 1 []) /\
  In "already in project, "
     (stdout (snd (@process_issue runtime (transport already_in_project)
                     security_project security_fix (Tally 0 []) (start _)))).
Proof.
  split; [reflexivity|].
  destruct (@already_in_project_counts_as_success runtime (transport already_in_project)
              security_project security_fix (Tally 0 []) (start _)
              (JStr "I_1") _ (add_cmd security_project (JStr "I_1")) 1 already_msg tt
              eq_refl eq_refl
              (or_introl (ex_intro _ "graphql: content "
                            (ex_intro _ " in this project (addprojectv2itembyid)" eq_refl))))
    as (Hadd & _ & Hok & _).
  split; [exact Hadd|]. rewrite (Hok _ eq_refl). split; [reflexivity|].
  vm_compute. tauto.
Defined.

(** C3, the claim as stated fails. A table that names a project the
    project map does not have ends the run with an uncaught [IndexError]
    and exit status 1, before any tuple is tried. *)
Lemma stray_project_aborts_the_run :
  resolvable stray_project = false /\
  fst (@main_on runtime (transport (happy (body_doc EmptyString)))
         stray_project (start _)) = inl IndexError /\
  exit_status (fst (@main_on runtime (transport (happy (body_doc EmptyString)))
                      stray_project (start _))) = 1 /\
  calls (snd (@main_on runtime (transport (happy (body_doc EmptyString)))
                stray_project (start _))) = [].
Proof. vm_compute. repeat split. Qed.

Lemma failures_are_contained_witness :
  resolvable assignments = true /\
  (exists r s', @main_on runtime (transport lookup_fails) assignments (start _)
                = (inr r, s')) /\
  exit_status (fst (@main_on runtime (transport lookup_fails) assignments (start _))) = 0.
Proof.
  split; [reflexivity|].
  destruct (@failures_are_contained runtime (transport lookup_fails)
              assignments (start _) eq_refl) as (Hends & Hexit & _).
  split; [exact Hends | exact Hexit].
Defined.

Definition is_59 (t : assignment) : bool := issue_num_of t =? 59.

Lemma failed_subset_determines_tally_witness :
  exists r s',
    @main_on runtime (transport (lookup_fails_for [59])) two_issues (start _)
      = (inr r, s') /\
    total r = 2 /\ processed (final r) = total r - 1 /\
    map fst (errors (final r)) = [59].
Proof.
  assert (Hrun : exists r s',
             @main_on runtime (transport (lookup_fails_for [59])) two_issues (start _)
             = (inr r, s'))
    by (eexists _, _; vm_compute; reflexivity).
  destruct Hrun as (r & s' & Hrun). exists r, s'. split; [exact Hrun|].
  assert (Hbad : forall pid t, In t (all_tuples two_issues) ->
                 forall s0 : @St (transport (lookup_fails_for [59])),
                   raises pid t s0 = is_59 t).
  { intros pid t Hin [[] c o]. simpl in Hin.
    destruct Hin as [<-|[<-|[]]]; vm_compute; reflexivity. }
  destruct (@failed_subset_determines_tally runtime (transport (lookup_fails_for [59]))
              is_59 two_issues (start _) r s' Hbad Hrun)
    as (Htotal & Hp & He & _).
  repeat split; [exact Htotal | exact Hp | exact He].
Defined.






Lemma processed_plus_failures_is_total_witness :
  exists r s',
    @main_on runtime (transport (lookup_fails_for [59])) two_issues (start _)
      = (inr r, s') /\
    total r = 2 /\
    processed (final r) + Z.of_nat (length (errors (final r))) = total r.
Proof.
  assert (Hrun : exists r s',
             @main_on runtime (transport (lookup_fails_for [59])) two_issues (start _)
             = (inr r, s'))
    by (eexists _, _; vm_compute; reflexivity).
  destruct Hrun as (r & s' & Hrun). exists r, s'. split; [exact Hrun|].
  destruct (@processed_plus_failures_is_total runtime
              (transport (lookup_fails_for [59])) two_issues (start _) r s' Hrun)
    as (Htotal & Hsum & _).
  split; [exact Htotal | exact Hsum].
Defined.

(** C5, the claim as stated fails. The milestone edit exits with a
    non-zero status, yet the run ends with an empty failure list and the
    issue counted as processed; the failed call is followed by the view
    command of the due-date step. *)
Lemma milestone_failure_leaves_no_record :
  answer milestone_fails (milestone_cmd 31 2)
    = inl (CalledProcessError (milestone_cmd 31 2) 1 "could not add to milestone") /\
  fst (@main_on runtime (transport milestone_fails) one_issue (start _))
    = inr (Result 1 (Tally 1 [])) /\
  calls (snd (@main_on runtime (transport milestone_fails) one_issue (start _)))
    = [ node_id_cmd 31;
        add_cmd security_project (JStr "I_1");
        milestone_cmd 31 2;
        view_cmd 31;
        edit_body_cmd 31 "**Due Date:** 2025-11-07" ].
Proof. vm_compute. repeat split. Qed.

Lemma milestone_failure_is_silent_witness :
  (exists tail,
     calls (snd (@process_issue runtime (transport milestone_fails)
                   security_project security_fix (Tally 0 []) (start _)))
       = [ node_id_cmd 31; add_cmd security_project (JStr "I_1"); milestone_cmd 31 2 ]
           ++ view_cmd 31 :: tail)%list /\
  fst (@process_issue runtime (transport milestone_fails)
         security_project security_fix (Tally 0 []) (start _))
    = inr (Tally 1 []).
Proof.
  destruct (@milestone_failure_is_silent runtime (transport milestone_fails)
              security_project security_fix (Tally 0 []) (start _)
              _ 2 (milestone_cmd 31 2) 1 "could not add to milestone" tt
              eq_refl eq_refl eq_refl)
    as (_ & _ & Hcalls & Hok & _).
  split; [exact Hcalls | exact (Hok true _ eq_refl)].
Defined.

(** C6, the claim as stated fails. Whether the client exits with a
    non-zero status or answers with a null issue, the exception that
    [get_issue_node_id] raises is not a [LookupError]. *)
Lemma missing_issue_error_is_no_LookupError :
  (exists e, fst (@get_issue_node_id runtime (transport lookup_null) 31 (start _)) = inl e /\
             e = TypeError /\ is_LookupError e = false) /\
  (exists e, fst (@get_issue_node_id runtime (transport lookup_fails) 31 (start _)) = inl e /\
             is_CalledProcessError e = true /\ is_LookupError e = false).
Proof. split; eexists; vm_compute; repeat split. Qed.

Lemma missing_issue_fails_its_tuple_only_witness :
  is_LookupError TypeError = false /\
  fst (@process_issue runtime (transport lookup_null)
         security_project security_fix (Tally 0 []) (start _))
    = inr (Tally 0 [(31, "'NoneType' object is not subscriptable")]) /\
  calls (snd (@process_issue runtime (transport lookup_null)
                security_project security_fix (Tally 0 []) (start _)))
    = [ node_id_cmd 31 ].
Proof.
  destruct (@missing_issue_fails_its_tuple_only runtime (transport lookup_null)
              security_project security_fix [] (Tally 0 []) (start _)
              (inr null_issue_doc) tt TypeError eq_refl
              (@missing_by_null runtime null_issue_doc
                 (JObj [("data", JObj [("repository", JObj [("issue", JNull)])])])
                 (JObj [("repository", JObj [("issue", JNull)])])
                 (JObj [("issue", JNull)])
                 eq_refl eq_refl eq_refl eq_refl))
    as (Hclass & _ & Hturn & _).
  split; [exact Hclass|]. rewrite Hturn. split; reflexivity.
Defined.

(** [{"rules":[{"type":"required_status_checks"},5]}] *)
Definition mixed_rules_doc : string :=
  "{" ++ quoted "rules" ++ ":[{" ++ quoted "type" ++ ":"
      ++ quoted "required_status_checks" ++ "},5]}".

Definition mixed_rules : json :=
  JObj [("rules", JArr [JObj [("type", JStr "required_status_checks")]; JInt 5])].

(** The stub runtime, which also decodes the document above. *)
Definition mixed_runtime : Runtime :=
  {| json_loads := fun text => lookup text ((mixed_rules_doc, mixed_rules) :: documents);
     repr := fun _ => "<value>";
     str_exn := exn_name |}.

(** C7, the claim as stated fails. The ruleset fetched contains a rule of
    type [required_status_checks], next to an entry that is not an object;
    the script ends with an uncaught [AttributeError] and exit status 1. *)
Lemma malformed_rule_entry_exits_1 :
  @fetched mixed_runtime (always (inr mixed_rules_doc)) (fresh _) = Some mixed_rules /\
  has_rule_of_type "required_status_checks" mixed_rules = true /\
  fst (@update_ruleset_with_required_checks mixed_runtime
         (always (inr mixed_rules_doc)) (fresh _)) = inl AttributeError /\
  fst (@script mixed_runtime (always (inr mixed_rules_doc)) (fresh _)) = 1.
Proof. vm_compute. repeat split. Qed.

(** The ruleset check on three answers of the client. *)
Example ruleset_with_rule_exits_0 :
  fst (@script runtime (always (inr ruleset_with_doc)) (fresh _)) = 0.
Proof. reflexivity. Qed.

Example ruleset_without_rule_exits_1 :
  fst (@script runtime (always (inr ruleset_without_doc)) (fresh _)) = 1.
Proof. reflexivity. Qed.

Example failed_fetch_exits_1 :
  fst (@script runtime (always (inl (CalledProcessError fetch_cmd 1 "HTTP 404"))) (fresh _)) = 1.
Proof. reflexivity. Qed.

End Scenarios.

(** * Further properties of scripts/setup_projects.py *)

Module SetupProjectsFurther.

Import SetupProjects SetupProjectsSpec.
Local Open Scope py_scope.

(** ** The commands of a run *)

Section Commands.
Context `{rt : Runtime} `{tr : Transport}.

(** From [s] to [s'] between [lo] and [hi] commands were issued, and the
    earlier part of the log is as it was. *)
Definition grew (s s' : St) (lo hi : nat) : Prop :=
  exists extra,
    calls s' = (calls s ++ extra)%list /\ (lo <= length extra <= hi)%nat.

Lemma grew_refl s : grew s s 0 0.
Proof. exists []. rewrite app_nil_r. simpl. split; [reflexivity | lia]. Qed.

Lemma grew_trans s s1 s2 a b c d :
  grew s s1 a b -> grew s1 s2 c d -> grew s s2 (a + c) (b + d).
Proof.
  intros (e1 & H1 & B1) (e2 & H2 & B2). exists (e1 ++ e2)%list.
  rewrite H2, H1, app_assoc, length_app. split; [reflexivity | lia].
Qed.

Lemma grew_weaken s s' a b a' b' :
  grew s s' a b -> (a' <= a)%nat -> (b <= b')%nat -> grew s s' a' b'.
Proof. intros (e & H & B) Ha Hb. exists e. split; [exact H | lia]. Qed.

Lemma grew_printed s s' chunk a b : grew s s' a b -> grew s (printed s' chunk) a b.
Proof. intros (e & H & B). exists e. split; [exact H | exact B]. Qed.

Lemma grew_from_printed s s' chunk a b : grew (printed s chunk) s' a b -> grew s s' a b.
Proof. intros (e & H & B). exists e. split; [exact H | exact B]. Qed.

Lemma grew_called s cmd w : grew s (called s cmd w) 1 1.
Proof. exists [cmd]. split; [reflexivity | simpl; lia]. Qed.

Lemma get_issue_node_id_grew n s : grew s (snd (get_issue_node_id n s)) 1 1.
Proof.
  rewrite get_issue_node_id_unfold.
  destruct (subprocess_run (node_id_cmd n) (world s)) as [[e|out] w];
    apply grew_called.
Qed.

Lemma subscript_error v k e :
  subscript v k = inl e -> is_CalledProcessError e = false.
Proof.
  unfold subscript. destruct v; try (intros H; now injection H as <-).
  destruct (lookup k fields); [discriminate | intros H; now injection H as <-].
Qed.

(** Whatever it returns, [add_issue_to_project] has called the client
    once, with the mutation, and printed nothing. *)
Lemma add_issue_to_project_state pid node s :
  snd (add_issue_to_project pid node s)
    = called s (add_cmd pid node) (snd (subprocess_run (add_cmd pid node) (world s))).
Proof.
  unfold add_issue_to_project, try_except_cpe, bind, run, loads, lift, ret, raise, called.
  destruct (subprocess_run (add_cmd pid node) (world s)) as [[e|out] w]; simpl.
  - destruct e; simpl; try reflexivity. now destruct (already_there stderr).
  - destruct (json_loads out) as [data|]; simpl; [|reflexivity].
    destruct (subscript data "data") as [e|d1] eqn:E1; simpl.
    { now rewrite (subscript_error _ _ _ E1). }
    destruct (subscript d1 "addProjectV2ItemById") as [e|d2] eqn:E2; simpl.
    { now rewrite (subscript_error _ _ _ E2). }
    destruct (subscript d2 "item") as [e|d3] eqn:E3; simpl.
    { now rewrite (subscript_error _ _ _ E3). }
    destruct (subscript d3 "id") as [e|v] eqn:E4; simpl; [|reflexivity].
    now rewrite (subscript_error _ _ _ E4).
Qed.

Lemma add_issue_to_project_grew pid node s :
  grew s (snd (add_issue_to_project pid node s)) 1 1.
Proof. rewrite add_issue_to_project_state. apply grew_called. Qed.

Lemma set_issue_milestone_state n m s :
  snd (set_issue_milestone n m s)
    = called s (milestone_cmd n m) (snd (subprocess_run (milestone_cmd n m) (world s))).
Proof.
  unfold set_issue_milestone, try_except_cpe, bind, run, ret, called.
  destruct (subprocess_run (milestone_cmd n m) (world s)) as [[e|out] w]; simpl;
    [now destruct (is_CalledProcessError e) | reflexivity].
Qed.

Lemma set_issue_milestone_grew n m s : grew s (snd (set_issue_milestone n m s)) 1 1.
Proof. rewrite set_issue_milestone_state. apply grew_called. Qed.

Lemma set_issue_due_date_grew n d s : grew s (snd (set_issue_due_date n d s)) 1 2.
Proof.
  destruct (set_issue_due_date_calls n d s) as (tail & Hcalls & Htail).
  exists (view_cmd n :: tail). split; [exact Hcalls|].
  destruct Htail as [->|(body & _ & _ & ->)]; simpl; lia.
Qed.

Lemma lookup_and_add_grew pid t s : grew s (snd (lookup_and_add pid t s)) 1 2.
Proof.
  destruct t as [[[n ph] ms] d]. unfold lookup_and_add, bind. rewrite print_eq.
  pose proof (get_issue_node_id_grew n (printed s ("  Issue #" ++ str_int n ++ "... "))) as H1.
  apply grew_from_printed in H1.
  destruct (get_issue_node_id n _) as [[e|node] s1]; simpl in *.
  - apply (grew_weaken _ _ _ _ _ _ H1); lia.
  - pose proof (add_issue_to_project_grew pid node s1) as H2.
    destruct (add_issue_to_project pid node s1) as [[e|item] s2]; simpl in *.
    + apply (grew_weaken _ _ _ _ _ _ (grew_trans _ _ _ _ _ _ _ H1 H2)); lia.
    + destruct (truthy item); rewrite print_eq; simpl;
        apply grew_printed;
        apply (grew_weaken _ _ _ _ _ _ (grew_trans _ _ _ _ _ _ _ H1 H2)); lia.
Qed.

Lemma milestone_step_grew t s : grew s (snd (milestone_step t s)) 0 1.
Proof.
  destruct t as [[[n ph] ms] d]. unfold milestone_step, bind, lift.
  destruct (milestone_number ms) as [e|m]; simpl.
  - apply (grew_weaken _ _ _ _ _ _ (grew_refl s)); lia.
  - pose proof (set_issue_milestone_grew n m s) as H1.
    destruct (set_issue_milestone n m s) as [[e|[|]] s1]; simpl in *;
      try rewrite print_eq; simpl; try apply grew_printed;
      apply (grew_weaken _ _ _ _ _ _ H1); lia.
Qed.

Lemma due_date_step_grew t s : grew s (snd (due_date_step t s)) 1 2.
Proof.
  destruct t as [[[n ph] ms] d]. unfold due_date_step, bind.
  pose proof (set_issue_due_date_grew n d s) as H1.
  destruct (set_issue_due_date n d s) as [[e|[|]] s1]; simpl in *;
    try rewrite print_eq; simpl; try apply grew_printed; exact H1.
Qed.

Lemma issue_steps_grew pid t s : grew s (snd (issue_steps pid t s)) 1 5.
Proof.
  unfold issue_steps, bind.
  pose proof (lookup_and_add_grew pid t s) as H1.
  destruct (lookup_and_add pid t s) as [[e|[]] s1]; simpl in *.
  { apply (grew_weaken _ _ _ _ _ _ H1); lia. }
  pose proof (milestone_step_grew t s1) as H2.
  destruct (milestone_step t s1) as [[e|[]] s2]; simpl in *.
  { apply (grew_weaken _ _ _ _ _ _ (grew_trans _ _ _ _ _ _ _ H1 H2)); lia. }
  pose proof (due_date_step_grew t s2) as H3.
  pose proof (grew_trans _ _ _ _ _ _ _ (grew_trans _ _ _ _ _ _ _ H1 H2) H3) as H.
  destruct (due_date_step t s2) as [[e|[]] s3]; simpl in *;
    try rewrite print_eq; simpl; try apply grew_printed;
    apply (grew_weaken _ _ _ _ _ _ H); lia.
Qed.

Lemma process_issue_grew pid t a s : grew s (snd (process_issue pid t a s)) 1 5.
Proof.
  unfold process_issue. pose proof (issue_steps_grew pid t s) as H.
  destruct (issue_steps pid t s) as [[e|[]] s1]; cbn [snd] in H.
  - unfold bind. rewrite print_eq. unfold ret. cbn [snd]. now apply grew_printed.
  - exact H.
Qed.

Lemma process_issues_grew pid issues : forall a s,
  grew s (snd (process_issues pid issues a s)) (length issues) (5 * length issues).
Proof.
  induction issues as [|t rest IH]; intros a s.
  - apply grew_refl.
  - simpl process_issues. unfold bind.
    pose proof (process_issue_grew pid t a s) as H1.
    destruct (process_issue_cases pid t a s) as (a1 & s1 & E & _).
    rewrite E in *. simpl in H1.
    apply (grew_weaken _ _ _ _ _ _ (grew_trans _ _ _ _ _ _ _ H1 (IH a1 s1)));
      simpl length; lia.
Qed.

Lemma process_projects_grew table : forall a s a' s',
  process_projects table a s = (inr a', s') ->
  grew s s' (length (all_tuples table)) (5 * length (all_tuples table)).
Proof.
  induction table as [|[pn issues] rest IH]; intros a s a' s' H.
  - injection H as <- <-. apply grew_refl.
  - simpl in H. unfold bind, lift in H.
    destruct (project_name_of pn) as [e|name]; [discriminate|].
    destruct (project_id_of name) as [e|pid]; [discriminate|].
    rewrite print_eq in H.
    match type of H with
    | context [process_issues pid issues a ?s0] =>
        pose proof (process_issues_grew pid issues a s0) as H1;
        destruct (process_issues pid issues a s0) as [[e|a1] s1]; [discriminate|]
    end.
    simpl in H1. apply grew_from_printed in H1. apply IH in H.
    unfold all_tuples. simpl flat_map. rewrite length_app.
    apply (grew_weaken _ _ _ _ _ _ (grew_trans _ _ _ _ _ _ _ H1 H));
      fold (all_tuples rest); lia.
Qed.

(** The line printed for one entry of the failure list. *)
Definition failure_line (e : Z * string) : string :=
  "  Issue #" ++ str_int (fst e) ++ ": " ++ snd e ++ nl.

(** The line printed above the failures. *)
Definition failures_header (errs : list (Z * string)) : string :=
  nl ++ "Errors (" ++ str_int (Z.of_nat (length errs)) ++ "):" ++ nl.

Lemma print_errors_frame errs : forall s,
  print_errors errs s =
    (inr tt,
     mkSt (world s) (calls s)
          (stdout s ++ map failure_line errs)%list).
Proof.
  induction errs as [|[n msg] rest IH]; intros s; simpl.
  - rewrite app_nil_r. now destruct s.
  - unfold bind. rewrite print_eq, IH. simpl. now rewrite <- app_assoc.
Qed.

(** The state [main_on] ends in: that of its outer loop, with the summary
    and the failure report printed. *)
Lemma main_on_state table s r s' :
  main_on table s = (inr r, s') ->
  exists s1,
    process_projects table (Tally 0 []) s = (inr (final r), s1) /\
    world s' = world s1 /\ calls s' = calls s1 /\
    stdout s' =
      (stdout s1 ++ summary_line (processed (final r)) (total r)
         :: match errors (final r) with
            | [] => []
            | errs => failures_header errs :: map failure_line errs
            end)%list.
Proof.
  unfold main_on, bind. intros H.
  destruct (process_projects table (Tally 0 []) s) as [[e|a] s1]; [discriminate|].
  rewrite print_eq in H. unfold ret in H.
  destruct (errors a) as [|err errs] eqn:Eerrs.
  - injection H as <- <-. exists s1. simpl. rewrite Eerrs. repeat split.
  - rewrite print_eq, print_errors_frame in H. injection H as <- <-.
    exists s1. simpl. rewrite Eerrs. repeat split.
    now rewrite <- !app_assoc.
Qed.

(** X1. A run that reaches its end has issued at least one and at most five
    commands for each tuple of the table, after the commands that were in
    the log before. *)
Theorem commands_per_run_are_bounded table s r s' :
  main_on table s = (inr r, s') ->
  exists extra,
    calls s' = (calls s ++ extra)%list /\
    (length (all_tuples table) <= length extra <= 5 * length (all_tuples table))%nat.
Proof.
  intros H. destruct (main_on_state _ _ _ _ H) as (s1 & Hloop & _ & Hcalls & _).
  destruct (process_projects_grew _ _ _ _ _ Hloop) as (extra & Hextra & Hlen).
  exists extra. split; [now rewrite Hcalls | exact Hlen].
Qed.

(** X2. When tuples failed, the output of a finished run ends with the
    summary, the line [Errors (k):] and one line per entry of the failure
    list, in the order of the list. *)
Theorem failures_are_reported_in_order table s r s' err errs :
  main_on table s = (inr r, s') ->
  errors (final r) = err :: errs ->
  exists before,
    stdout s' =
      (before
         ++ [ summary_line (processed (final r)) (total r);
              failures_header (err :: errs) ]
         ++ map failure_line (err :: errs))%list.
Proof.
  intros H Herrs. destruct (main_on_state _ _ _ _ H) as (s1 & _ & _ & _ & Hout).
  exists (stdout s1). rewrite Hout, Herrs. reflexivity.
Qed.

End Commands.

(** ** What ends a run, and where *)

Lemma lookup_in {V : Type} (k : string) (v : V) (m : list (string * V)) :
  In (k, v) m -> exists v', lookup k m = Some v'.
Proof.
  induction m as [|[k' v'] m IH]; [intros []|].
  intros [H|H]; simpl.
  - injection H as -> ->. rewrite String.eqb_refl. now eexists.
  - destruct (k' =? k)%string; [now eexists | now apply IH].
Qed.

(** The name found for a project number is a key of the project map, so
    the second lookup of the outer loop cannot fail after the first. *)
Lemma project_id_of_found pn name :
  project_name_of pn = inr name -> exists pid, project_id_of name = inr pid.
Proof.
  unfold project_name_of, project_id_of.
  destruct (filter _ project_map) as [|[k p] rest] eqn:F; [discriminate|].
  intros H. injection H as <-. change (fst (k, p)) with k.
  assert (Hin : In (k, p) project_map).
  { assert (Hf : In (k, p) (filter (fun kv => (number (snd kv) =? pn)%Z) project_map))
      by (rewrite F; now left).
    apply filter_In in Hf. exact (proj1 Hf). }
  destruct (lookup_in _ _ _ Hin) as (p' & ->). now eexists.
Qed.

Lemma project_name_of_error pn e : project_name_of pn = inl e -> e = IndexError.
Proof.
  unfold project_name_of. destruct (filter _ project_map); intros H;
    [now injection H | discriminate].
Qed.

Lemma unresolved_is_IndexError pn :
  resolves pn = false -> project_name_of pn = inl IndexError.
Proof.
  unfold resolves. destruct (project_name_of pn) as [e|name] eqn:E.
  - intros _. now rewrite (project_name_of_error _ _ E).
  - destruct (project_id_of_found _ _ E) as (pid & ->). discriminate.
Qed.

Section Abort.
Context `{rt : Runtime} `{tr : Transport}.

Lemma process_projects_app pre rest : forall a s,
  process_projects (pre ++ rest) a s =
    match process_projects pre a s with
    | (inr a1, s1) => process_projects rest a1 s1
    | (inl e, s1) => (inl e, s1)
    end.
Proof.
  induction pre as [|[pn issues] pre IH]; intros a s; [reflexivity|].
  simpl. unfold bind, lift.
  destruct (project_name_of pn) as [e|name]; [reflexivity|].
  destruct (project_id_of name) as [e|pid]; [reflexivity|].
  rewrite print_eq.
  destruct (process_issues pid issues a _) as [[e|a1] s1]; [reflexivity|].
  apply IH.
Qed.

Lemma process_projects_raises table : forall a s e s',
  process_projects table a s = (inl e, s') ->
  e = IndexError /\ resolvable table = false.
Proof.
  induction table as [|[pn issues] rest IH]; intros a s e s' H; [discriminate|].
  simpl in H. unfold bind, lift in H. unfold resolvable. simpl forallb.
  destruct (resolves pn) eqn:Hres.
  - unfold resolves in Hres.
    destruct (project_name_of pn) as [e0|name]; [discriminate|].
    destruct (project_id_of name) as [e0|pid]; [discriminate|].
    rewrite print_eq in H.
    match type of H with
    | context [process_issues pid issues a ?s0] =>
        destruct (process_issues_total pid issues a s0) as (a1 & s1 & E1 & _)
    end.
    rewrite E1 in H. apply IH in H. exact H.
  - rewrite (unresolved_is_IndexError _ Hres) in H. injection H as <- _. now split.
Qed.

Lemma main_on_raises table s e s' :
  main_on table s = (inl e, s') ->
  process_projects table (Tally 0 []) s = (inl e, s').
Proof.
  unfold main_on, bind. intros H.
  destruct (process_projects table (Tally 0 []) s) as [[e0|a] s1];
    [now injection H as -> ->|].
  rewrite print_eq in H. unfold ret in H.
  destruct (errors a) as [|err errs]; [discriminate|].
  rewrite print_eq, print_errors_frame in H. discriminate.
Qed.

(** X3. Whatever the client does, a run either reaches its end, which it
    does exactly for the tables whose project numbers are all in the
    project map, or it ends with an [IndexError]: no other exception
    leaves [main]. *)
Theorem only_IndexError_leaves_main table s :
  (resolvable table = true /\ exists r, fst (main_on table s) = inr r) \/
  (resolvable table = false /\ fst (main_on table s) = inl IndexError).
Proof.
  destruct (resolvable table) eqn:Hres.
  - left. split; [reflexivity|].
    destruct (main_on_total table Hres s) as (r & s' & E). exists r. now rewrite E.
  - right. split; [reflexivity|].
    destruct (main_on table s) as [[e|r] s'] eqn:E.
    + apply main_on_raises, process_projects_raises in E. destruct E as [-> _].
      reflexivity.
    + destruct (main_on_inv _ _ _ _ E) as (_ & s1 & Hloop).
      apply process_projects_inv in Hloop. destruct Hloop as [Hyes _]. congruence.
Qed.

(** X4. A project number that is not in the project map ends the run when
    the outer loop reaches it: the projects before it have been processed
    in full, nothing is done or printed for it or for the projects after
    it, and no summary is printed. *)
Theorem run_aborts_at_stray_project pre pn issues post s a1 s1 :
  process_projects pre (Tally 0 []) s = (inr a1, s1) ->
  resolves pn = false ->
  main_on (pre ++ (pn, issues) :: post) s = (inl IndexError, s1).
Proof.
  intros Hpre Hres. unfold main_on, bind.
  rewrite process_projects_app, Hpre. simpl. unfold bind, lift.
  now rewrite (unresolved_is_IndexError _ Hres).
Qed.

Lemma process_issues_keeps pid issues : forall a s a' s',
  process_issues pid issues a s = (inr a', s') ->
  (processed a <= processed a')%Z /\
  exists more, errors a' = (errors a ++ more)%list.
Proof.
  induction issues as [|t rest IH]; intros a s a' s' H.
  - injection H as <- <-. split; [lia|]. exists []. now rewrite app_nil_r.
  - simpl in H. unfold bind in H.
    destruct (process_issue_cases pid t a s) as (a1 & s1 & E & Hcase).
    rewrite E in H. apply IH in H. destruct H as (Hp & more & He).
    destruct Hcase as [(_ & Hp1 & He1) | (_ & Hp1 & msg & He1)];
      rewrite Hp1 in Hp; rewrite He1 in He.
    + split; [lia | now exists more].
    + split; [lia|]. rewrite <- app_assoc in He. eexists. exact He.
Qed.

(** X5. The loops only ever add to the tally: [processed] never goes down,
    and the failure list at the end starts with the failure list at the
    beginning, no entry removed or changed. *)
Theorem tally_only_grows table a s a' s' :
  process_projects table a s = (inr a', s') ->
  (processed a <= processed a')%Z /\
  exists more, errors a' = (errors a ++ more)%list.
Proof.
  revert a s. induction table as [|[pn issues] rest IH]; intros a s H.
  - injection H as <- <-. split; [lia|]. exists []. now rewrite app_nil_r.
  - simpl in H. unfold bind, lift in H.
    destruct (project_name_of pn) as [e|name]; [discriminate|].
    destruct (project_id_of name) as [e|pid]; [discriminate|].
    rewrite print_eq in H.
    destruct (process_issues pid issues a _) as [[e|a1] s1] eqn:E1; [discriminate|].
    apply process_issues_keeps in E1. destruct E1 as (Hp1 & more1 & He1).
    apply IH in H. destruct H as (Hp & more & He).
    split; [lia|]. rewrite He, He1, <- app_assoc. eexists. reflexivity.
Qed.

End Abort.

(** ** The turn of one tuple *)

Lemma append_assoc (a b c : string) : (a ++ b) ++ c = a ++ b ++ c.
Proof. induction a as [|x a IH]; simpl; [reflexivity | now rewrite IH]. Qed.

Lemma append_nil_r (a : string) : a ++ EmptyString = a.
Proof. induction a as [|x a IH]; simpl; [reflexivity | now rewrite IH]. Qed.

Section Turns.
Context `{rt : Runtime} `{tr : Transport}.

Lemma get_issue_node_id_state n s :
  snd (get_issue_node_id n s)
    = called s (node_id_cmd n) (snd (subprocess_run (node_id_cmd n) (world s))).
Proof.
  rewrite get_issue_node_id_unfold.
  now destruct (subprocess_run (node_id_cmd n) (world s)) as [[e|out] w].
Qed.

(** When the first group of statements ends normally it has issued the
    lookup and the mutation, in this order, and nothing else. *)
Lemma lookup_and_add_returned pid t s s1 :
  lookup_and_add pid t s = (inr tt, s1) ->
  exists node,
    calls s1 = (calls s ++ [node_id_cmd (issue_num_of t); add_cmd pid node])%list.
Proof.
  destruct t as [[[n ph] ms] d]. change (issue_num_of (n, ph, ms, d)) with n.
  unfold lookup_and_add, bind. rewrite print_eq.
  pose proof (get_issue_node_id_state n (printed s ("  Issue #" ++ str_int n ++ "... ")))
    as Hget.
  destruct (get_issue_node_id n _) as [[e|node] s0]; [discriminate|].
  pose proof (add_issue_to_project_state pid node s0) as Hadd.
  destruct (add_issue_to_project pid node s0) as [[e|item] s2]; [discriminate|].
  simpl in Hget, Hadd. intros H. exists node.
  assert (Hs : calls s1 = calls s2)
    by (destruct (truthy item); rewrite print_eq in H; injection H as <-; reflexivity).
  rewrite Hs, Hadd, Hget. simpl. now rewrite <- app_assoc.
Qed.

(** X6. A milestone name that is not a key of the milestone map fails the
    tuple with a [KeyError], and does so after the issue has been added to
    its project: the lookup and the mutation are the only commands of the
    turn, no milestone or body command follows. *)
Theorem unknown_milestone_fails_after_the_add pid t a s s1 :
  lookup_and_add pid t s = (inr tt, s1) ->
  lookup (milestone_of t) milestone_map = None ->
  let e := KeyError (milestone_of t) in
  process_issue pid t a s
    = (inr (Tally (processed a) (errors a ++ [(issue_num_of t, str_exn e)])),
       printed s1 (error_line e)) /\
  exists node,
    calls (snd (process_issue pid t a s))
      = (calls s ++ [node_id_cmd (issue_num_of t); add_cmd pid node])%list.
Proof.
  intros Hla Hkey e.
  assert (Hsteps : issue_steps pid t s = (inl e, s1)).
  { unfold issue_steps, bind. rewrite Hla.
    destruct t as [[[n ph] ms] d]. subst e.
    change (milestone_of (n, ph, ms, d)) with ms in *.
    unfold milestone_step, bind, lift, milestone_number. now rewrite Hkey. }
  rewrite (process_issue_raised _ _ a _ _ _ Hsteps). split; [reflexivity|].
  destruct (lookup_and_add_returned _ _ _ _ Hla) as (node & Hcalls).
  exists node. exact Hcalls.
Qed.

(** X7. A failure of the add-to-project call whose standard error mentions
    neither [already exists] nor [already added] is raised again as it
    came: the tuple is recorded as failed with that exception, and the
    mutation is the last command of the turn. *)
Theorem real_add_failure_fails_the_tuple pid t a s node s1 cmd rc stderr w :
  get_issue_node_id (issue_num_of t) (printed s (issue_header t)) = (inr node, s1) ->
  subprocess_run (add_cmd pid node) (world s1)
    = (inl (CalledProcessError cmd rc stderr), w) ->
  already_there stderr = false ->
  let e := CalledProcessError cmd rc stderr in
  let s2 := called s1 (add_cmd pid node) w in
  add_issue_to_project pid node s1 = (inl e, s2) /\
  process_issue pid t a s
    = (inr (Tally (processed a) (errors a ++ [(issue_num_of t, str_exn e)])),
       printed s2 (error_line e)).
Proof.
  intros Hnode Hrun Hnot e s2.
  assert (Hadd : add_issue_to_project pid node s1 = (inl e, s2)).
  { unfold add_issue_to_project, try_except_cpe, bind, run.
    rewrite Hrun. simpl. now rewrite Hnot. }
  split; [exact Hadd|].
  apply process_issue_raised.
  destruct t as [[[n ph] ms] d].
  unfold issue_header in Hnode. change (issue_num_of (n, ph, ms, d)) with n in Hnode.
  unfold issue_steps, lookup_and_add, bind. now rewrite print_eq, Hnode, Hadd.
Qed.

(** X8. The two best-effort setters never raise [CalledProcessError]: an
    exception that leaves [set_issue_milestone] or [set_issue_due_date] is
    of another class. *)
Theorem setters_never_raise_CalledProcessError n m d s e :
  fst (set_issue_milestone n m s) = inl e \/ fst (set_issue_due_date n d s) = inl e ->
  is_CalledProcessError e = false.
Proof.
  intros [H|H].
  - unfold set_issue_milestone, try_except_cpe, bind, run, ret in H.
    destruct (subprocess_run (milestone_cmd n m) (world s)) as [[e0|out] w];
      simpl in H; [|discriminate].
    destruct (is_CalledProcessError e0) eqn:E; [discriminate|].
    now injection H as <-.
  - rewrite set_issue_due_date_unfold in H.
    destruct (subprocess_run (view_cmd n) (world s)) as [[e0|out] w]; simpl in H.
    { destruct (is_CalledProcessError e0) eqn:E; [discriminate|]. now injection H as <-. }
    destruct (json_loads out) as [data|]; simpl in H; [|now injection H as <-].
    destruct (body_of data) as [e0|body] eqn:Eb; simpl in H.
    { injection H as <-. now rewrite (body_of_error _ _ Eb). }
    destruct (py_in (due_marker d) body) as [e0|[|]] eqn:Ein; simpl in H.
    + injection H as <-. now rewrite (py_in_error _ _ _ Ein).
    + discriminate.
    + destruct (subprocess_run _ w) as [[e0|out2] w2]; simpl in H; [|discriminate].
      destruct (is_CalledProcessError e0) eqn:E; [discriminate|]. now injection H as <-.
Qed.

(** X9. When the view command of the due-date step exits with a non-zero
    status, [set_issue_due_date] returns [False] after that one call; the
    turn prints its check mark without [due date set], the tuple is counted
    as processed and nothing is added to the failure list. *)
Theorem due_date_failure_is_silent pid t a s s2 cmd rc stderr w :
  (lookup_and_add pid t ;; milestone_step t)%py s = (inr tt, s2) ->
  subprocess_run (view_cmd (issue_num_of t)) (world s2)
    = (inl (CalledProcessError cmd rc stderr), w) ->
  let s3 := called s2 (view_cmd (issue_num_of t)) w in
  set_issue_due_date (issue_num_of t) (date_of t) s2 = (inr false, s3) /\
  process_issue pid t a s
    = (inr (Tally (processed a + 1) (errors a)), printed s3 (" " ++ check_mark ++ nl)).
Proof.
  intros Hpre Hrun s3.
  assert (Hdue : set_issue_due_date (issue_num_of t) (date_of t) s2 = (inr false, s3)).
  { rewrite set_issue_due_date_unfold, Hrun. reflexivity. }
  split; [exact Hdue|].
  apply process_issue_ok. unfold issue_steps. unfold bind in *.
  destruct (lookup_and_add pid t s) as [[e|[]] s1]; [discriminate|].
  rewrite Hpre. destruct t as [[[n ph] ms] d]. simpl in Hdue.
  unfold due_date_step, bind. now rewrite Hdue.
Qed.

Lemma new_body_contains_marker body d :
  str_in (due_marker d) (new_body body d) = true.
Proof.
  apply PyFacts.str_in_iff. unfold new_body. destruct (truthy body).
  - exists (format body ++ nl ++ nl), EmptyString.
    now rewrite append_nil_r, !append_assoc.
  - exists EmptyString, EmptyString. simpl. now rewrite append_nil_r.
Qed.

(** X10. The body that [set_issue_due_date] writes contains the marker; so
    a later call for the same date that is served this body back issues the
    view command only, returns [True] and leaves the body alone. *)
Theorem rerun_finds_its_marker n d s out w data body :
  subprocess_run (view_cmd n) (world s) = (inr out, w) ->
  json_loads out = Some data ->
  body_text data = Some (new_body body d) ->
  str_in (due_marker d) (new_body body d) = true /\
  set_issue_due_date n d s = (inr true, called s (view_cmd n) w).
Proof.
  intros Hrun Hload Htext. split; [apply new_body_contains_marker|].
  rewrite set_issue_due_date_unfold, Hrun. simpl. rewrite Hload.
  rewrite (body_of_text _ _ Htext). simpl.
  now rewrite new_body_contains_marker.
Qed.

Lemma failed_lookup_ends_turn pid t s e w :
  subprocess_run (node_id_cmd (issue_num_of t)) (world s) = (inl e, w) ->
  issue_steps pid t s
    = (inl e, called (printed s (issue_header t)) (node_id_cmd (issue_num_of t)) w).
Proof.
  intros Hrun. destruct t as [[[n ph] ms] d].
  unfold issue_header in *. change (issue_num_of (n, ph, ms, d)) with n in *.
  unfold issue_steps, lookup_and_add, bind.
  rewrite print_eq, get_issue_node_id_unfold. simpl world. now rewrite Hrun.
Qed.

Definition lookup_of (t : assignment) : list string := node_id_cmd (issue_num_of t).

Lemma failing_lookups_calls_issues pid issues :
  (forall n w, exists e w', subprocess_run (node_id_cmd n) w = (inl e, w')) ->
  forall a s,
    calls (snd (process_issues pid issues a s)) = (calls s ++ map lookup_of issues)%list.
Proof.
  intros Hfail. induction issues as [|t rest IH]; intros a s.
  - simpl. now rewrite app_nil_r.
  - simpl process_issues. unfold bind.
    destruct (Hfail (issue_num_of t) (world s)) as (e & w & Hrun).
    rewrite (process_issue_raised _ _ a _ _ _ (failed_lookup_ends_turn pid t s e w Hrun)).
    rewrite IH. simpl. now rewrite <- app_assoc.
Qed.

Lemma failing_lookups_calls_projects table :
  (forall n w, exists e w', subprocess_run (node_id_cmd n) w = (inl e, w')) ->
  forall a s a' s',
    process_projects table a s = (inr a', s') ->
    calls s' = (calls s ++ map lookup_of (all_tuples table))%list.
Proof.
  intros Hfail. induction table as [|[pn issues] rest IH]; intros a s a' s' H.
  - injection H as <- <-. simpl. now rewrite app_nil_r.
  - simpl in H. unfold bind, lift in H.
    destruct (project_name_of pn) as [e|name]; [discriminate|].
    destruct (project_id_of name) as [e|pid]; [discriminate|].
    rewrite print_eq in H.
    match type of H with
    | context [process_issues pid issues a ?s0] =>
        pose proof (failing_lookups_calls_issues pid issues Hfail a s0) as H1;
        destruct (process_issues pid issues a s0) as [[e|a1] s1]; [discriminate|]
    end.
    apply IH in H. simpl in H1. rewrite H, H1.
    unfold all_tuples. simpl flat_map. now rewrite map_app, <- app_assoc.
Qed.

(** X11. When every lookup fails, a finished run has processed nothing, has
    every tuple of the table in its failure list in table order, and has
    issued one command for each tuple, its lookup, and no other. *)
Theorem failing_lookups_cost_one_call_each table s r s' :
  (forall n w, exists e w', subprocess_run (node_id_cmd n) w = (inl e, w')) ->
  main_on table s = (inr r, s') ->
  processed (final r) = 0%Z /\
  map fst (errors (final r)) = map issue_num_of (all_tuples table) /\
  calls s' = (calls s ++ map lookup_of (all_tuples table))%list.
Proof.
  intros Hfail Hmain.
  destruct (failing_lookups_fail_every_tuple table s r s' Hfail Hmain) as [Hp He].
  split; [exact Hp|]. split; [exact He|].
  destruct (main_on_state _ _ _ _ Hmain) as (s1 & Hloop & _ & Hcalls & _).
  rewrite Hcalls. exact (failing_lookups_calls_projects table Hfail _ _ _ _ Hloop).
Qed.

End Turns.

End SetupProjectsFurther.

(** * Further properties of scripts/configure_required_checks.py *)

Module RequiredChecksFurther.

Import RequiredChecks RequiredChecksSpec.
Import SetupProjectsSpec.
Local Open Scope py_scope.

(** No white-space character starts anywhere in the text. *)
Fixpoint no_space (s : string) : bool :=
  match s with
  | EmptyString => true
  | String _ s' => (space_width s =? 0)%nat && no_space s'
  end.

Lemma split_from_no_space s : forall word,
  no_space s = true ->
  split_from s word 0 =
    match word ++ s with
    | EmptyString => []
    | text => [text]
    end.
Proof.
  induction s as [|c s IH]; intros word H.
  - simpl. rewrite SetupProjectsFurther.append_nil_r. now destruct word.
  - cbn [no_space] in H. apply andb_true_iff in H. destruct H as [Hc Hs].
    apply Nat.eqb_eq in Hc. cbn [split_from]. rewrite Hc, (IH _ Hs).
    now rewrite SetupProjectsFurther.append_assoc.
Qed.

Section Script.
Context `{rt : Runtime} `{tr : Transport}.

(** The arguments [run_gh_command] passes to the client. *)
Definition gh_api (cmd : string) : list string := "gh" :: "api" :: split cmd.

Lemma run_gh_command_cases cmd s :
  let '(answer, w) := subprocess_run (gh_api cmd) (world s) in
  run_gh_command cmd s =
    match answer with
    | inl (CalledProcessError _ _ stderr) =>
        (inr JNull,
         printed (printed (called s (gh_api cmd) w)
                          ("Error running command: " ++ cmd ++ nl))
                 ("Error: " ++ stderr ++ nl))
    | inl JSONDecodeError =>
        (inr JNull,
         printed (called s (gh_api cmd) w)
                 ("Error parsing JSON: " ++ str_exn JSONDecodeError ++ nl))
    | inl e => (inl e, called s (gh_api cmd) w)
    | inr out =>
        match json_loads out with
        | Some v => (inr v, called s (gh_api cmd) w)
        | None =>
            (inr JNull,
             printed (called s (gh_api cmd) w)
                     ("Error parsing JSON: " ++ str_exn JSONDecodeError ++ nl))
        end
    end.
Proof.
  unfold run_gh_command, run, gh_api.
  destruct (subprocess_run ("gh" :: "api" :: split cmd) (world s)) as [[e|out] w].
  - destruct e; reflexivity.
  - destruct (json_loads out); reflexivity.
Qed.



(** X13. A path in which no white-space character occurs, of ASCII or of
    the rest of Unicode, reaches the client as one argument: the command
    issued is [gh api <path>]. *)
Theorem run_gh_command_passes_the_path_whole cmd s :
  cmd <> EmptyString ->
  no_space cmd = true ->
  calls (snd (run_gh_command cmd s)) = (calls s ++ [["gh"; "api"; cmd]])%list.
Proof.
  intros Hne Hns.
  assert (Hsplit : gh_api cmd = ["gh"; "api"; cmd]).
  { unfold gh_api, split. rewrite (split_from_no_space _ _ Hns). simpl.
    now destruct cmd. }
  pose proof (run_gh_command_cases cmd s) as H. rewrite Hsplit in H.
  destruct (subprocess_run ["gh"; "api"; cmd] (world s)) as [[e|out] w]; rewrite H.
  - destruct e; reflexivity.
  - destruct (json_loads out); reflexivity.
Qed.

Definition could_not_fetch : string := "Error: Could not fetch current ruleset" ++ nl.

(** The two lines [run_gh_command] prints when the client exits with a
    non-zero status. *)
Definition running_line (cmd : string) : string := "Error running command: " ++ cmd ++ nl.
Definition stderr_line (stderr : string) : string := "Error: " ++ stderr ++ nl.

(** X14. When the fetch exits with a non-zero status the script prints the
    command, the client's standard error and [Error: Could not fetch current
    ruleset], these three lines and no instructions, and exits with
    status 1. *)
Theorem failed_fetch_is_reported cmd rc stderr w s :
  subprocess_run fetch_cmd (world s) = (inl (CalledProcessError cmd rc stderr), w) ->
  script s =
    (1%Z,
     mkSt w (calls s ++ [fetch_cmd])
          (stdout s ++ [ running_line ruleset_path; stderr_line stderr;
                         could_not_fetch ])%list).
Proof.
  intros Hrun. unfold script, update_ruleset_with_required_checks, get_current_ruleset.
  unfold bind at 1. pose proof (run_gh_command_cases ruleset_path s) as H.
  unfold gh_api in H. rewrite fetch_cmd_eq, Hrun in H. rewrite H.
  unfold printed, called. simpl. now rewrite <- !app_assoc.
Qed.

(** X15. A decoded answer that is falsy ([null], [false], [0], an empty
    text, list or object) is taken for a failed fetch: the script prints
    [Error: Could not fetch current ruleset] and nothing else, and exits
    with status 1. *)
Theorem falsy_document_counts_as_unfetched out w current s :
  subprocess_run fetch_cmd (world s) = (inr out, w) ->
  json_loads out = Some current ->
  truthy current = false ->
  script s = (1%Z, mkSt w (calls s ++ [fetch_cmd]) (stdout s ++ [could_not_fetch])%list).
Proof.
  intros Hrun Hload Hfalsy.
  unfold script, update_ruleset_with_required_checks, get_current_ruleset.
  unfold bind at 1. pose proof (run_gh_command_cases ruleset_path s) as H.
  unfold gh_api in H. rewrite fetch_cmd_eq, Hrun, Hload in H. rewrite H, Hfalsy.
  reflexivity.
Qed.

(** X16. A decoded answer that is truthy but not an object (a non-empty
    list or text, a number, [true]) makes the script end with an uncaught
    [AttributeError], exit status 1, having printed nothing. *)
Theorem non_object_document_raises out w current s :
  subprocess_run fetch_cmd (world s) = (inr out, w) ->
  json_loads out = Some current ->
  truthy current = true ->
  is_object current = false ->
  update_ruleset_with_required_checks s
    = (inl AttributeError, called s fetch_cmd w) /\
  script s = (1%Z, called s fetch_cmd w).
Proof.
  intros Hrun Hload Htruthy Hnot.
  assert (Hup : update_ruleset_with_required_checks s
                = (inl AttributeError, called s fetch_cmd w)).
  { unfold update_ruleset_with_required_checks, get_current_ruleset.
    unfold bind at 1. pose proof (run_gh_command_cases ruleset_path s) as H.
    unfold gh_api in H. rewrite fetch_cmd_eq, Hrun, Hload in H. rewrite H, Htruthy.
    cbn [negb]. unfold bind, lift.
    destruct current; try discriminate; reflexivity. }
  split; [exact Hup|]. unfold script. now rewrite Hup.
Qed.

End Script.

End RequiredChecksFurther.

(** * Further scenarios on the stub transports *)

Module FurtherScenarios.

Import SetupProjects SetupProjectsSpec SetupProjectsFurther.
Import RequiredChecks RequiredChecksSpec RequiredChecksFurther.
Import Stub Scenarios.
Local Open Scope Z_scope.

#[local] Existing Instance runtime.

(** The stub runtime, which also decodes [[1]] and [{}]. *)
Definition runtime' : Runtime :=
  {| json_loads := fun text =>
       lookup text (("[1]", JArr [JInt 1]) :: ("{}", JObj []) :: documents);
     repr := fun _ => "<value>";
     str_exn := exn_name |}.

(** The add-to-project call is refused for a reason of its own. *)
Definition add_refused : answers :=
  Answers (ok node_doc) (fails "HTTP 401: Bad credentials")
          (ok EmptyString) (ok (body_doc EmptyString)) (ok EmptyString).

(** The view of the body exits with a non-zero status. *)
Definition view_fails : answers :=
  Answers (ok node_doc) (ok item_doc) (ok EmptyString)
          (fails "HTTP 502") (ok EmptyString).

(** The view of the body answers with something that is not JSON. *)
Definition view_garbled : answers :=
  Answers (ok node_doc) (ok item_doc) (ok EmptyString)
          (ok "<html>") (ok EmptyString).

Definition unplanned : assignment :=
  (31, "Phase 1: Security", "No Such Milestone", "2025-11-07").

Definition lookup_fails_msg : string := "GraphQL: Could not resolve to an Issue".

Lemma commands_per_run_are_bounded_witness :
  exists r s',
    @main_on runtime (transport (lookup_fails_for [59])) two_issues (start _)
      = (inr r, s') /\
    exists extra, calls s' = extra /\ (2 <= length extra <= 10)%nat.
Proof.
  assert (Hrun : exists r s',
             @main_on runtime (transport (lookup_fails_for [59])) two_issues (start _)
             = (inr r, s'))
    by (eexists _, _; vm_compute; reflexivity).
  destruct Hrun as (r & s' & Hrun). exists r, s'. split; [exact Hrun|].
  exact (@commands_per_run_are_bounded runtime (transport (lookup_fails_for [59]))
           two_issues (start _) r s' Hrun).
Defined.

Lemma failures_are_reported_in_order_witness :
  exists r s',
    @main_on runtime (transport (lookup_fails_for [59])) two_issues (start _)
      = (inr r, s') /\
    exists before,
      stdout s' =
        (before
           ++ [ summary_line (processed (final r)) (total r);
                failures_header [(59, exn_name (CalledProcessError [] 1 EmptyString))] ]
           ++ [ failure_line (59, exn_name (CalledProcessError [] 1 EmptyString)) ])%list.
Proof.
  assert (Hrun : exists r s',
             @main_on runtime (transport (lookup_fails_for [59])) two_issues (start _)
             = (inr r, s') /\
             errors (final r) = [(59, exn_name (CalledProcessError [] 1 EmptyString))])
    by (eexists _, _; vm_compute; split; reflexivity).
  destruct Hrun as (r & s' & Hrun & Herrs). exists r, s'. split; [exact Hrun|].
  exact (@failures_are_reported_in_order runtime (transport (lookup_fails_for [59]))
           two_issues (start _) r s' _ _ Hrun Herrs).
Defined.

Lemma run_aborts_at_stray_project_witness :
  exists s1,
    calls s1 = [ node_id_cmd 31;
                 add_cmd security_project (JStr "I_1");
                 milestone_cmd 31 2;
                 view_cmd 31;
                 edit_body_cmd 31 "**Due Date:** 2025-11-07" ] /\
    @main_on runtime (transport (happy (body_doc EmptyString)))
       (one_issue ++ (99, [database_work]) :: []) (start _)
      = (inl IndexError, s1).
Proof.
  assert (Hpre : exists a1 s1,
             @process_projects runtime (transport (happy (body_doc EmptyString)))
               one_issue (Tally 0 []) (start _) = (inr a1, s1) /\
             calls s1 = [ node_id_cmd 31;
                          add_cmd security_project (JStr "I_1");
                          milestone_cmd 31 2;
                          view_cmd 31;
                          edit_body_cmd 31 "**Due Date:** 2025-11-07" ])
    by (eexists _, _; vm_compute; split; reflexivity).
  destruct Hpre as (a1 & s1 & Hpre & Hcalls). exists s1. split; [exact Hcalls|].
  exact (@run_aborts_at_stray_project runtime (transport (happy (body_doc EmptyString)))
           one_issue 99 [database_work] [] (start _) a1 s1 Hpre eq_refl).
Defined.

Lemma tally_only_grows_witness :
  exists a' s',
    @process_projects runtime (transport (lookup_fails_for [59])) two_issues
       (Tally 7 [(1, "earlier")]) (start _) = (inr a', s') /\
    7 <= processed a' /\
    exists more, errors a' = ([(1, "earlier")] ++ more)%list.
Proof.
  assert (Hrun : exists a' s',
             @process_projects runtime (transport (lookup_fails_for [59])) two_issues
               (Tally 7 [(1, "earlier")]) (start _) = (inr a', s'))
    by (eexists _, _; vm_compute; reflexivity).
  destruct Hrun as (a' & s' & Hrun). exists a', s'. split; [exact Hrun|].
  exact (@tally_only_grows runtime (transport (lookup_fails_for [59])) two_issues
           (Tally 7 [(1, "earlier")]) (start _) a' s' Hrun).
Defined.

Lemma unknown_milestone_fails_after_the_add_witness :
  fst (@process_issue runtime (transport (happy (body_doc EmptyString)))
         security_project unplanned (Tally 0 []) (start _))
    = inr (Tally 0 [(31, "'No Such Milestone'")]) /\
  exists node,
    calls (snd (@process_issue runtime (transport (happy (body_doc EmptyString)))
                  security_project unplanned (Tally 0 []) (start _)))
      = [ node_id_cmd 31; add_cmd security_project node ].
Proof.
  destruct (@unknown_milestone_fails_after_the_add runtime
              (transport (happy (body_doc EmptyString)))
              security_project unplanned (Tally 0 []) (start _) _ eq_refl eq_refl)
    as (Hturn & Hcalls).
  split; [now rewrite Hturn | exact Hcalls].
Defined.

Lemma real_add_failure_fails_the_tuple_witness :
  already_there "HTTP 401: Bad credentials" = false /\
  fst (@process_issue runtime (transport add_refused)
         security_project security_fix (Tally 0 []) (start _))
    = inr (Tally 0 [(31, "Command returned non-zero exit status 1.")]).
Proof.
  split; [reflexivity|].
  destruct (@real_add_failure_fails_the_tuple runtime (transport add_refused)
              security_project security_fix (Tally 0 []) (start _)
              (JStr "I_1") _ (add_cmd security_project (JStr "I_1")) 1
              "HTTP 401: Bad credentials" tt eq_refl eq_refl eq_refl)
    as (_ & Hturn).
  now rewrite Hturn.
Defined.

Lemma setters_never_raise_CalledProcessError_witness :
  fst (@set_issue_due_date runtime (transport view_garbled) 31 "2025-11-07" (start _))
    = inl JSONDecodeError /\
  is_CalledProcessError JSONDecodeError = false.
Proof.
  split; [reflexivity|].
  exact (@setters_never_raise_CalledProcessError runtime (transport view_garbled)
           31 2 "2025-11-07" (start _) JSONDecodeError (or_intror eq_refl)).
Defined.

Lemma due_date_failure_is_silent_witness :
  fst (@process_issue runtime (transport view_fails)
         security_project security_fix (Tally 0 []) (start _))
    = inr (Tally 1 []) /\
  stdout (snd (@process_issue runtime (transport view_fails)
                 security_project security_fix (Tally 0 []) (start _)))
    = [ issue_header security_fix; "added to project, "; "milestone set, ";
        " " ++ check_mark ++ nl ]%string.
Proof.
  destruct (@due_date_failure_is_silent runtime (transport view_fails)
              security_project security_fix (Tally 0 []) (start _)
              _ (view_cmd 31) 1 "HTTP 502" tt eq_refl eq_refl)
    as (_ & Hturn).
  rewrite Hturn. split; reflexivity.
Defined.

Lemma rerun_finds_its_marker_witness :
  @set_issue_due_date runtime
     (transport (happy (body_doc "**Due Date:** 2025-11-07")))
     31 "2025-11-07" (start _)
    = (inr true, called (start _) (view_cmd 31) tt).
Proof.
  exact (proj2 (@rerun_finds_its_marker runtime
                  (transport (happy (body_doc "**Due Date:** 2025-11-07")))
                  31 "2025-11-07" (start _)
                  (body_doc "**Due Date:** 2025-11-07") tt
                  (JObj [("body", JStr "**Due Date:** 2025-11-07")])
                  (JStr EmptyString) eq_refl eq_refl eq_refl)).
Defined.

Lemma lookup_fails_always n (w : @World (transport lookup_fails)) :
  exists e w', @subprocess_run (transport lookup_fails) (node_id_cmd n) w = (inl e, w').
Proof. eexists _, _. reflexivity. Qed.

Lemma failing_lookups_cost_one_call_each_witness :
  exists r s',
    @main_on runtime (transport lookup_fails) two_issues (start _) = (inr r, s') /\
    processed (final r) = 0 /\
    map fst (errors (final r)) = [31; 59] /\
    calls s' = [ node_id_cmd 31; node_id_cmd 59 ].
Proof.
  assert (Hrun : exists r s',
             @main_on runtime (transport lookup_fails) two_issues (start _)
             = (inr r, s'))
    by (eexists _, _; vm_compute; reflexivity).
  destruct Hrun as (r & s' & Hrun). exists r, s'. split; [exact Hrun|].
  exact (@failing_lookups_cost_one_call_each runtime (transport lookup_fails)
           two_issues (start _) r s' lookup_fails_always Hrun).
Defined.


(** U+00A0, the no-break space, in UTF-8. *)
Definition no_break_space : string :=
  String "194"%char (String "160"%char EmptyString).

(** White space outside ASCII separates words too, and a client that
    raises [JSONDecodeError] itself is answered like an undecodable
    output. *)
Example split_at_no_break_space :
  split ("repos/x" ++ no_break_space ++ "y") = [ "repos/x"; "y" ]%string /\
  no_space ("repos/x" ++ no_break_space ++ "y") = false /\
  split ("  a" ++ String "009"%char "b  c ") = [ "a"; "b"; "c" ]%string /\
  fst (@run_gh_command runtime (always (inl JSONDecodeError)) ruleset_path (fresh _))
    = inr JNull.
Proof. repeat split. Qed.

Lemma run_gh_command_passes_the_path_whole_witness :
  calls (snd (@run_gh_command runtime (always (inr ruleset_with_doc))
                "repos/RdHamilton/MTGA-Companion/branches" (fresh _)))
    = [ [ "gh"; "api"; "repos/RdHamilton/MTGA-Companion/branches" ] ].
Proof.
  apply (@run_gh_command_passes_the_path_whole runtime (always (inr ruleset_with_doc))
           "repos/RdHamilton/MTGA-Companion/branches" (fresh _));
    [discriminate | reflexivity].
Defined.

Lemma failed_fetch_is_reported_witness :
  @script runtime (always (inl (CalledProcessError fetch_cmd 1 "HTTP 404"))) (fresh _)
    = (1, @mkSt (always (inl (CalledProcessError fetch_cmd 1 "HTTP 404"))) tt
            [ fetch_cmd ]
            [ running_line ruleset_path; stderr_line "HTTP 404"; could_not_fetch ]).
Proof.
  exact (@failed_fetch_is_reported runtime
           (always (inl (CalledProcessError fetch_cmd 1 "HTTP 404")))
           fetch_cmd 1 "HTTP 404" tt (fresh _) eq_refl).
Defined.

Lemma falsy_document_counts_as_unfetched_witness :
  @script runtime' (always (inr "{}")) (fresh _)
    = (1, @mkSt (always (inr "{}")) tt [ fetch_cmd ] [ could_not_fetch ]).
Proof.
  exact (@falsy_document_counts_as_unfetched runtime' (always (inr "{}"))
           "{}" tt (JObj []) (fresh _) eq_refl eq_refl eq_refl).
Defined.

Lemma non_object_document_raises_witness :
  @script runtime' (always (inr "[1]")) (fresh _)
    = (1, @mkSt (always (inr "[1]")) tt [ fetch_cmd ] []).
Proof.
  exact (proj2 (@non_object_document_raises runtime' (always (inr "[1]"))
                  "[1]" tt (JArr [JInt 1]) (fresh _)
                  eq_refl eq_refl eq_refl eq_refl)).
Defined.

End FurtherScenarios.
